(** * systemctl: a container-local service supervisor (main.go)

    Shallow embedding of the daemon side of [main.go] and the properties
    of its supervision engine, process registry and command protocol.

    Go strings are byte sequences and are modelled by [string]; the
    registry [mapCommand] is a [gmap string Cmd]; Go's [int] is [Z]; an
    [error] is [option string] carrying the text of [err.Error()]. *)

From Stdlib Require Import ZArith Ascii String Bool Lia.
From stdpp Require Import base option list strings gmap.

Local Open Scope Z_scope.

(** ** The [strings] package, as far as [main.go] uses it *)

(** [strings.HasPrefix(s, prefix)]. *)
Definition strings_HasPrefix (s pre : string) : bool := String.prefix pre s.

(** [strings.Contains(s, substr)]. *)
Fixpoint strings_Contains (s sub : string) : bool :=
  String.prefix sub s ||
  match s with
  | EmptyString => false
  | String _ s' => strings_Contains s' sub
  end.

(** [strings.HasSuffix(s, suffix)]. *)
Definition strings_HasSuffix (s suf : string) : bool :=
  (String.length suf <=? String.length s)%nat &&
  String.eqb (String.substring (String.length s - String.length suf)
                               (String.length suf) s) suf.

(** [strings.TrimSuffix(s, suffix)]: [s] without the trailing [suffix],
    or [s] itself when it does not end with it. *)
Definition strings_TrimSuffix (s suf : string) : string :=
  if strings_HasSuffix s suf
  then String.substring 0 (String.length s - String.length suf) s
  else s.

(** [strings.Split(s, sep)] for a one-byte separator, which is what both
    call sites pass ([":"] and [" "]): all the fields between separators,
    one more than there are separators; [Split("", sep)] is [[""]]. *)
Fixpoint strings_Split (s : string) (sep : ascii) : list string :=
  match s with
  | EmptyString => [EmptyString]
  | String c s' =>
      if Ascii.eqb c sep then EmptyString :: strings_Split s' sep
      else match strings_Split s' sep with
           | [] => [String c EmptyString]
           | f :: fs => String c f :: fs
           end
  end.

(** [strings.ReplaceAll(s, old, new)] for a non-empty [old]: scanning from
    the left, every non-overlapping occurrence of [old] is replaced.
    [skip] counts the bytes of a matched occurrence still to be passed. *)
Fixpoint replace_scan (skip : nat) (s old new : string) : string :=
  match s with
  | EmptyString => EmptyString
  | String c s' =>
      match skip with
      | S k => replace_scan k s' old new
      | O =>
          if String.prefix old s
          then new +:+ replace_scan (String.length old - 1) s' old new
          else String c (replace_scan 0 s' old new)
      end
  end.

Definition strings_ReplaceAll (s old new : string) : string :=
  replace_scan 0 s old new.

(** ** Values shared by the daemon's functions *)

(** A Go call that returns [(T, error)]. *)
Inductive result (A : Type) : Type :=
| Ok (a : A)
| Err (msg : string).
Arguments Ok {A} a.
Arguments Err {A} msg.

(** [unit.UnitOption] of go-systemd: one [Name=Value] line of a section. *)
Record UnitOption := {
  Section_ : string;
  Name : string;
  Value : string
}.

(** [*exec.Cmd]. [Process] is [nil] until [Start] has launched the child;
    afterwards it holds the child's PID. [Err_] is the field [Err]: the
    error of the path lookup that [exec.Command] made, if it made one
    and it failed. [SysProcAttr], which puts the child in a session of
    its own, plays no part below and is left out. *)
Record Cmd := {
  Path : string;
  Args : list string;
  Dir : string;
  Process : option Z;
  Err_ : option string
}.

(** [command == nil]. *)
Definition is_nil (command : option Cmd) : bool :=
  match command with
  | None => true
  | Some _ => false
  end.

Definition with_Path (path : string) (c : Cmd) : Cmd :=
  {| Path := path; Args := Args c; Dir := Dir c; Process := Process c;
     Err_ := Err_ c |}.

Definition with_Dir (dir : string) (c : Cmd) : Cmd :=
  {| Path := Path c; Args := Args c; Dir := dir; Process := Process c;
     Err_ := Err_ c |}.

Definition with_Process (pid : Z) (c : Cmd) : Cmd :=
  {| Path := Path c; Args := Args c; Dir := Dir c; Process := Some pid;
     Err_ := Err_ c |}.

Definition with_Err (err : string) (c : Cmd) : Cmd :=
  {| Path := Path c; Args := Args c; Dir := Dir c; Process := Process c;
     Err_ := Some err |}.

(** ** The operating system, as the daemon sees it

    The file system maps absolute paths to regular files and symbolic
    links (parent directories are taken to exist, and permissions to
    suffice); [executables] are the paths the system can execute; the
    process table is the set of PIDs that currently exist. A child that
    is sent [SIGTERM] exits at once, unless it is [stubborn]: such a
    child ignores the signal and goes only when it is sent [SIGKILL] or
    exits of its own accord. Children that react to [SIGTERM] late are
    not told apart from these two kinds. *)

Inductive Signal := SIGTERM | SIGKILL.

Inductive node :=
| File (content : string)
| Link (target : string).

Record World := {
  fs : gmap string node;
  environ : gmap string string;
  executables : gset string;
  alive : gset Z;
  stubborn : gset Z;
  next_pid : Z;
  delivered : list (Z * Signal)
}.

Definition with_fs (f : gmap string node) (w : World) : World :=
  {| fs := f; environ := environ w; executables := executables w;
     alive := alive w; stubborn := stubborn w; next_pid := next_pid w;
     delivered := delivered w |}.

Definition with_environ (e : gmap string string) (w : World) : World :=
  {| fs := fs w; environ := e; executables := executables w;
     alive := alive w; stubborn := stubborn w; next_pid := next_pid w;
     delivered := delivered w |}.

Definition with_executables (x : gset string) (w : World) : World :=
  {| fs := fs w; environ := environ w; executables := x;
     alive := alive w; stubborn := stubborn w; next_pid := next_pid w;
     delivered := delivered w |}.

Definition with_alive (a : gset Z) (w : World) : World :=
  {| fs := fs w; environ := environ w; executables := executables w;
     alive := a; stubborn := stubborn w; next_pid := next_pid w;
     delivered := delivered w |}.

Definition with_delivered (l : list (Z * Signal)) (w : World) : World :=
  {| fs := fs w; environ := environ w; executables := executables w;
     alive := alive w; stubborn := stubborn w; next_pid := next_pid w;
     delivered := l |}.

Definition with_next_pid (p : Z) (w : World) : World :=
  {| fs := fs w; environ := environ w; executables := executables w;
     alive := alive w; stubborn := stubborn w; next_pid := p;
     delivered := delivered w |}.

(** Path resolution follows symbolic links, at most 40 of them. *)
Fixpoint resolve (hops : nat) (f : gmap string node) (path : string) : option string :=
  match f !! path with
  | Some (File content) => Some content
  | Some (Link target) =>
      match hops with
      | O => None
      | S k => resolve k f target
      end
  | None => None
  end.

(** [os.Stat(path)]: [true] when [err == nil]. *)
Definition os_Stat (w : World) (path : string) : bool :=
  match resolve 40 (fs w) path with
  | Some _ => true
  | None => false
  end.

(** [os.ReadFile(path)]. *)
Definition os_ReadFile (w : World) (path : string) : result string :=
  match resolve 40 (fs w) path with
  | Some content => Ok content
  | None => Err ("open " +:+ path +:+ ": no such file or directory")
  end.

(** [os.Symlink(oldname, newname)]: fails when [newname] exists. *)
Definition os_Symlink (oldname newname : string) (w : World) : option string * World :=
  match fs w !! newname with
  | Some _ =>
      (Some ("symlink " +:+ oldname +:+ " " +:+ newname +:+ ": file exists"), w)
  | None => (None, with_fs (<[newname := Link oldname]> (fs w)) w)
  end.

(** [os.Remove(name)]: fails when nothing is there to remove. *)
Definition os_Remove (name : string) (w : World) : option string * World :=
  match fs w !! name with
  | Some _ => (None, with_fs (delete name (fs w)) w)
  | None => (Some ("remove " +:+ name +:+ ": no such file or directory"), w)
  end.

(** [os.Getenv(key)]: the value, or the empty string when unset. *)
Definition os_Getenv (w : World) (key : string) : string :=
  default EmptyString (environ w !! key).

(** [p.Signal(sig)] on the process [pid]. *)
Definition Process_Signal (pid : Z) (sig : Signal) (w : World) : option string * World :=
  if decide (pid ∈ alive w)
  then (None,
        with_delivered ((pid, sig) :: delivered w)
          (match sig with
           | SIGKILL => with_alive (alive w ∖ {[pid]}) w
           | SIGTERM => w
           end))
  else (Some "os: process already finished", w).

(** [cmd.Wait()] in [Start], on the child that was just sent [SIGTERM].
    The call has no time limit: it returns when the child is gone, and
    never, [None], when the child ignores the signal. *)
Definition Cmd_Wait (pid : Z) (w : World) : option World :=
  if decide (pid ∈ alive w)
  then if decide (pid ∈ stubborn w)
       then None
       else Some (with_alive (alive w ∖ {[pid]}) w)
  else Some w.

(** The child [pid] exits, for whatever reason. *)
Definition exits (pid : Z) (w : World) : unit * World :=
  (tt, with_alive (alive w ∖ {[pid]}) w).

(** The [select] of [Stop]: [p.Wait()] in a goroutine against
    [time.After(5 * time.Second)]. *)
Inductive Waited :=
| TimedOut
| Exited (err : option string).

Definition Process_Wait_5s (pid : Z) (w : World) : Waited * World :=
  if decide (pid ∈ alive w)
  then if decide (pid ∈ stubborn w)
       then (TimedOut, w)
       else (Exited None, with_alive (alive w ∖ {[pid]}) w)
  else (Exited (Some "wait: no child processes"), w).

(** [filepath.SplitList(path)]. *)
Definition filepath_SplitList (path : string) : list string :=
  if String.eqb path "" then [] else strings_Split path ":".

(** The loop of [exec.LookPath] over the directories of [$PATH]. The
    entries of [$PATH] are taken to be absolute directory names without
    a trailing slash, as an image sets them, so that
    [filepath.Join(dir, file)] is [dir/file] and is absolute. *)
Fixpoint lookpath_in (w : World) (dirs : list string) (file : string) : option string :=
  match dirs with
  | [] => None
  | dir :: rest =>
      let path := dir +:+ "/" +:+ file in
      if decide (path ∈ executables w) then Some path
      else lookpath_in w rest file
  end.

(** [strconv.Quote(s)] for a name of printable bytes without quotes and
    backslashes. *)
Definition quoted (s : string) : string :=
  String (ascii_of_nat 34) s +:+ String (ascii_of_nat 34) "".

(** [exec.LookPath(file)] for a [file] without a slash. *)
Definition exec_LookPath (w : World) (file : string) : result string :=
  match lookpath_in w (filepath_SplitList (os_Getenv w "PATH")) file with
  | Some path => Ok path
  | None => Err ("exec: " +:+ quoted file +:+ ": executable file not found in $PATH")
  end.

(** [exec.Command(name, arg...)]. A [name] with [filepath.Base(name) ==
    name] is looked up: that is a non-empty name without a slash, which
    goes through [$PATH], and the name ["/"], for which the lookup finds
    a directory. Any other name is the path as it stands. *)
Definition exec_Command (w : World) (name : string) (arg : list string) : Cmd :=
  let cmd := {| Path := name; Args := name :: arg; Dir := EmptyString;
                Process := None; Err_ := None |} in
  if String.eqb name "/"
  then with_Err ("exec: " +:+ quoted name +:+ ": is a directory") cmd
  else if String.eqb name "" || strings_Contains name "/" then cmd
  else
    match exec_LookPath w name with
    | Ok lp => with_Path lp cmd
    | Err err => with_Err err cmd
    end.

(** [cmd.Start()]: it returns the error of the lookup when there is one,
    refuses an empty path, and otherwise launches [Path] when the system
    can execute it. *)
Definition Cmd_Start (c : Cmd) (w : World) : result Z * World :=
  match Err_ c with
  | Some err => (Err err, w)
  | None =>
      if String.eqb (Path c) "" then (Err "exec: no command", w)
      else if decide (Path c ∈ executables w)
      then (Ok (next_pid w),
            with_next_pid (next_pid w + 1)
              (with_alive ({[next_pid w]} ∪ alive w) w))
      else (Err ("fork/exec " +:+ Path c +:+ ": no such file or directory"), w)
  end.

(** Whether [cmd.Start()] launches the command. *)
Definition launches (w : World) (c : Cmd) : bool :=
  match Cmd_Start c w with
  | (Ok _, _) => true
  | (Err _, _) => false
  end.

(** ** The daemon's state *)

(** The lines the daemon writes with [log.Printf], newest first. *)
Inductive LogLine :=
| LStarting (service : string) (try : Z)
| LFileNotFound (service : string)
| LReadFailed (err : string)
| LParseFailed (err : string)
| LTerminating (service : string)
| LNoExecStart (err : string)
| LExecStartEmpty (service : string)
| LExecuting (command : Cmd)
| LStartFailed (err : string)
| LStarted (service : string) (pid : Z)
| LExitedWith (service : string) (exitCode : Z)
| LRemoved (service : string)
| LExitedNormally (service : string)
| LAttempting (service : string) (remaining : Z)
| LRestartFailed (err : string)
| LAutostartFailed (name : string) (err : string)
| LSigtermFailed (err : string)
| LForcing
| LSigkillFailed (err : string)
| LWaitFailed (err : string)
| LRequest (op : string) (service : string)
| LReboot.

(** One access to [mapCommand], and whether the goroutine making it was
    between [lock.Lock()] and its deferred [lock.Unlock()]. *)
Inductive AccessKind := MapRead | MapWrite | MapDelete.

Record Access := {
  kind : AccessKind;
  key : string;
  under_lock : bool
}.

(** The goroutines started by [go func() { ... }()] in [Start], with the
    variables their closure captured: blocked in [command.Wait()], or in
    [time.Sleep] before the retry. *)
Inductive Goroutine :=
| Watching (service : string) (try : Z) (pid : Z) (systemdService : list UnitOption)
| Sleeping (service : string) (try : Z).

(** The daemon process: the registry [mapCommand]; whether the goroutine
    that is running holds [lock]; the watcher goroutines that wait; what
    was logged and how the registry was accessed, newest first; and the
    world around it. The registry stores pointers to commands; a command
    changes after it was stored only when [command.Start()] sets its
    [Process], which [command_Start] below writes through to the entry. *)
Record Daemon := {
  mapCommand : gmap string Cmd;
  lock : bool;
  goroutines : list Goroutine;
  logs : list LogLine;
  accesses : list Access;
  world : World
}.

Definition with_mapCommand (m : gmap string Cmd) (d : Daemon) : Daemon :=
  {| mapCommand := m; lock := lock d; goroutines := goroutines d;
     logs := logs d; accesses := accesses d; world := world d |}.

Definition with_lock (b : bool) (d : Daemon) : Daemon :=
  {| mapCommand := mapCommand d; lock := b; goroutines := goroutines d;
     logs := logs d; accesses := accesses d; world := world d |}.

Definition with_goroutines (g : list Goroutine) (d : Daemon) : Daemon :=
  {| mapCommand := mapCommand d; lock := lock d; goroutines := g;
     logs := logs d; accesses := accesses d; world := world d |}.

Definition with_logs (l : list LogLine) (d : Daemon) : Daemon :=
  {| mapCommand := mapCommand d; lock := lock d; goroutines := goroutines d;
     logs := l; accesses := accesses d; world := world d |}.

Definition with_accesses (a : list Access) (d : Daemon) : Daemon :=
  {| mapCommand := mapCommand d; lock := lock d; goroutines := goroutines d;
     logs := logs d; accesses := a; world := world d |}.

Definition with_world (w : World) (d : Daemon) : Daemon :=
  {| mapCommand := mapCommand d; lock := lock d; goroutines := goroutines d;
     logs := logs d; accesses := accesses d; world := w |}.

(** The daemon right after [main] reaches [Domain]. *)
Definition boot (w : World) : Daemon :=
  {| mapCommand := ∅; lock := false; goroutines := []; logs := [];
     accesses := []; world := w |}.

(** ** Running daemon code

    A piece of daemon code either returns, or it never returns because
    it is blocked in a call that does not come back, or it stops the
    whole process: by a run-time panic (a nil pointer dereference) or by
    [os.Exit]. A blocked call is not taken up again: what a goroutine
    would do if its call came back after all is not modelled. *)
Inductive outcome (A : Type) : Type :=
| Done (a : A) (d : Daemon)
| Blocked (d : Daemon)
| Panic (d : Daemon)
| Exit (code : Z) (d : Daemon).
Arguments Done {A} a d.
Arguments Blocked {A} d.
Arguments Panic {A} d.
Arguments Exit {A} code d.

Definition state_of {A : Type} (o : outcome A) : Daemon :=
  match o with
  | Done _ d => d
  | Blocked d => d
  | Panic d => d
  | Exit _ d => d
  end.

Definition M (A : Type) : Type := Daemon → outcome A.

Global Instance M_ret : MRet M := λ A a d, Done a d.

Global Instance M_bind : MBind M := λ A B f m d,
  match m d with
  | Done a d' => f a d'
  | Blocked d' => Blocked d'
  | Panic d' => Panic d'
  | Exit code d' => Exit code d'
  end.

Definition gets {A : Type} (f : Daemon → A) : M A := λ d, Done (f d) d.
Definition modify (f : Daemon → Daemon) : M unit := λ d, Done tt (f d).

Definition panic {A : Type} : M A := λ d, Panic d.

(** [os.Exit(code)]. *)
Definition os_Exit {A : Type} (code : Z) : M A := λ d, Exit code d.

(** [log.Printf] / [log.Println]. *)
Definition log (l : LogLine) : M unit :=
  modify (λ d, with_logs (l :: logs d) d).

(** A system call. *)
Definition sys {A : Type} (call : World → A * World) : M A :=
  λ d, let '(a, w) := call (world d) in Done a (with_world w d).

(** A system call that only inspects the world. *)
Definition ask {A : Type} (query : World → A) : M A :=
  gets (λ d, query (world d)).

(** A system call that may never return. *)
Definition blocking (call : World → option World) : M unit :=
  λ d, match call (world d) with
       | Some w => Done tt (with_world w d)
       | None => Blocked d
       end.

Definition lock_Lock : M unit := modify (with_lock true).
Definition lock_Unlock : M unit := modify (with_lock false).

(** [lock.Lock(); defer lock.Unlock(); body]. *)
Definition locked {A : Type} (body : M A) : M A :=
  lock_Lock;; r ← body; lock_Unlock;; mret r.

Definition record (k : AccessKind) (name : string) : M unit :=
  modify (λ d, with_accesses
                 ({| kind := k; key := name; under_lock := lock d |} :: accesses d) d).

(** [mapCommand[name]]; [None] is Go's [nil]. *)
Definition map_get (name : string) : M (option Cmd) :=
  record MapRead name;; gets (λ d, mapCommand d !! name).

(** [mapCommand[name] = command]. *)
Definition map_set (name : string) (command : Cmd) : M unit :=
  record MapWrite name;;
  modify (λ d, with_mapCommand (<[name := command]> (mapCommand d)) d).

(** [delete(mapCommand, name)]. *)
Definition map_delete (name : string) : M unit :=
  record MapDelete name;;
  modify (λ d, with_mapCommand (delete name (mapCommand d)) d).

(** [go func() { ... }()]. *)
Definition go (g : Goroutine) : M unit :=
  modify (λ d, with_goroutines (goroutines d ++ [g]) d).

(** What another goroutine does in the middle of this one. [lock] says
    whether the goroutine that is running holds the lock; the other one
    does not hold it. *)
Definition elsewhere (m : M unit) : M unit :=
  held ← gets lock;
  modify (with_lock false);;
  m;;
  modify (with_lock held).

(** ** main.go *)

Definition sysPath : string := "/usr/lib/systemd/system".
Definition usrPath : string := "/etc/systemd/system".
Definition enablePath : string := "/etc/systemd/system/multi-user.target.wants".

(** [fmt.Sprintf("%s/%s.service", dir, service)]. *)
Definition unit_path (dir service : string) : string :=
  dir +:+ "/" +:+ service +:+ ".service".

(** [getOptions]: the value of the first option of that section and name. *)
Fixpoint getOptions (list : list UnitOption) (section name : string) : result string :=
  match list with
  | [] => Err ("option " +:+ section +:+ "." +:+ name +:+ " not found")
  | option :: rest =>
      if String.eqb (Section_ option) section && String.eqb (Name option) name
      then Ok (Value option)
      else getOptions rest section name
  end.

(** [val, _ := getOptions(...)]: the error is dropped and [val] is [""]. *)
Definition value_or_empty (r : result string) : string :=
  match r with
  | Ok v => v
  | Err _ => EmptyString
  end.

(** [find]: the user directory first, then the system directory. *)
Definition find (service : string) (w : World) : string :=
  let path := unit_path usrPath service in
  if os_Stat w path then path
  else
    let path := unit_path sysPath service in
    if os_Stat w path then path
    else EmptyString.

(** The loop of [Start] over [split[1:]] that builds [cmdArgs]. *)
Fixpoint cmdArgs_of (w : World) (fields : list string) : list string :=
  match fields with
  | [] => []
  | s :: rest =>
      if strings_HasPrefix s "$"
      then
        let getenv := os_Getenv w s in
        if negb (String.eqb getenv "")
        then getenv :: cmdArgs_of w rest
        else cmdArgs_of w rest
      else s :: cmdArgs_of w rest
  end.

(** [Start], from [strings.Split(val, " ")] to the working directory:
    the command built from [ExecStart] and [WorkingDirectory].
    [split[0]] always exists, so the default of [hd] is never taken. *)
Definition command_of (w : World) (val val2 : string) : Cmd :=
  let split := strings_Split val " " in
  let cmdArgs := cmdArgs_of w (tail split) in
  let command := exec_Command w (hd EmptyString split) cmdArgs in
  if negb (String.eqb val2 "")
  then with_Dir val2 command
  else with_Dir "/root" command.

(** [isProcessRunning]: signal 0 reaches the process. *)
Definition isProcessRunning (pid : Z) (w : World) : bool :=
  bool_decide (pid ∈ alive w).

(** [command.Start()] on the command just stored under [service]: the
    registry holds the pointer [command], so the entry sees the
    [Process] that a successful launch sets. *)
Definition command_Start (service : string) (command : Cmd) : M (result Z) :=
  started ← sys (Cmd_Start command);
  match started with
  | Ok pid =>
      modify (λ d, with_mapCommand
                     (<[service := with_Process pid command]> (mapCommand d)) d);;
      mret (Ok pid)
  | Err err => mret (Err err)
  end.

(** The wire reply of [handleConnection] after the [switch]. *)
Definition respond (err : option string) : M (option string) :=
  match err with
  | Some e => mret (Some e)
  | None => mret (Some "success")
  end.

(** [handleConnection], from [strings.Split(msg, ":")] to the
    [strings.ReplaceAll]: the operation and the service name dispatched
    on, or [None] when the connection is dropped for want of a colon. *)
Definition request_of (msg : string) : option (string * string) :=
  let split := strings_Split msg ":" in
  if (length split <? 2)%nat then None
  else Some (nth 0 split EmptyString,
             strings_ReplaceAll (nth 1 split EmptyString) ".service" "").

(** A stand-in for go-systemd's [unit.Deserialize], used for concrete
    scenarios only: [[Section]] headers and [Name=Value] lines. *)
Definition newline : ascii := ascii_of_nat 10.

Fixpoint simple_lines (section : string) (lines : list string) : result (list UnitOption) :=
  match lines with
  | [] => Ok []
  | line :: rest =>
      if String.eqb line "" then simple_lines section rest
      else if strings_HasPrefix line "[" && strings_HasSuffix line "]"
      then simple_lines (String.substring 1 (String.length line - 2) line) rest
      else
        match String.index 0 "=" line with
        | None => Err ("unable to parse line: " +:+ line)
        | Some n =>
            match simple_lines section rest with
            | Err e => Err e
            | Ok opts =>
                Ok ({| Section_ := section;
                       Name := String.substring 0 n line;
                       Value := String.substring (S n) (String.length line - S n) line |}
                      :: opts)
            end
        end
  end.

Definition simple_Deserialize (content : string) : result (list UnitOption) :=
  simple_lines "" (strings_Split content newline).

Definition unlines (lines : list string) : string :=
  foldr (λ l acc, l +:+ String newline acc) EmptyString lines.

Section Supervisor.

(** [unit.Deserialize] of go-systemd, the unit-file parser. *)
Variable Deserialize : string → result (list UnitOption).

(** [parseSystemdService]. *)
Definition parseSystemdService (content : string) : result (list UnitOption) :=
  match Deserialize content with
  | Err err => Err ("failed to parse service file: " +:+ err)
  | Ok opts => Ok opts
  end.

(** [Enable]. *)
Definition Enable (service : string) : M (option string) :=
  locked (
    path ← ask (find service);
    if String.eqb path "" then mret (Some "no service found")
    else
      err ← sys (os_Symlink path (unit_path enablePath service));
      match err with
      | Some e => mret (Some e)
      | None => mret None
      end).

(** [Disable]. *)
Definition Disable (service : string) : M (option string) :=
  locked (
    err ← sys (os_Remove (unit_path enablePath service));
    match err with
    | Some e => mret (Some e)
    | None => mret None
    end).

(** [Start], up to the launch of the watcher goroutine. *)
Definition Start (service : string) (try : Z) : M (option string) :=
  locked (
    log (LStarting service try);;
    path ← ask (find service);
    if String.eqb path "" then
      log (LFileNotFound service);; mret (Some "no service found")
    else
    file ← ask (λ w, os_ReadFile w path);
    match file with
    | Err err => log (LReadFailed err);; mret (Some err)
    | Ok file =>
    match parseSystemdService file with
    | Err err => log (LParseFailed err);; mret (Some err)
    | Ok systemdService =>
    process ← map_get service;
    match process with
    | Some process =>
        match Process process with
        | Some pid =>
            log (LTerminating service);;
            sys (Process_Signal pid SIGTERM);;
            blocking (Cmd_Wait pid)
        | None => mret tt
        end
    | None => mret tt
    end;;
    match getOptions systemdService "Service" "ExecStart" with
    | Err err => log (LNoExecStart err);; mret (Some err)
    | Ok val =>
    if String.eqb val "" then
      log (LExecStartEmpty service);; mret (Some "ExecStart not found")
    else
    let val2 := value_or_empty (getOptions systemdService "Service" "WorkingDirectory") in
    command ← ask (λ w, command_of w val val2);
    map_set service command;;
    log (LExecuting command);;
    started ← command_Start service command;
    match started with
    | Err err => log (LStartFailed err);; mret (Some err)
    | Ok pid =>
        log (LStarted service pid);;
        go (Watching service try pid systemdService);;
        mret None
    end
    end
    end
    end).

(** The goroutine of [Start], from the return of [command.Wait()] to
    the decision whether to go on to the retry; [true] means it does. *)
Definition watcher_exited (service : string) (systemdService : list UnitOption)
    (exitCode : Z) : M bool :=
  log (LExitedWith service exitCode);;
  let val := value_or_empty (getOptions systemdService "Service" "Restart") in
  removed ← ((if String.eqb val "always"
              then command ← map_get service; mret (is_nil command)
              else mret false) : M bool);
  if (removed : bool) then log (LRemoved service);; mret false
  else if String.eqb val "on-failure" && (exitCode =? 0)
  then log (LExitedNormally service);; mret false
  else mret true.

(** The goroutine of [Start], after [time.Sleep(time.Second * 5)]. *)
Definition watcher_retry (service : string) (try : Z) : M unit :=
  if try >? 0 then
    log (LAttempting service (try - 1));;
    err ← Start service (try - 1);
    match err with
    | Some e => log (LRestartFailed e)
    | None => mret tt
    end
  else mret tt.

(** [Stop]. *)
Definition Stop (service : string) : M (option string) :=
  locked (
    command ← map_get service;
    match command with
    | None => mret (Some "service is not run")
    | Some command =>
    match Process command with
    | None => panic
    | Some pid =>
        err ← sys (Process_Signal pid SIGTERM);
        match err with
        | Some e => log (LSigtermFailed e)
        | None => mret tt
        end;;
        waited ← sys (Process_Wait_5s pid);
        match waited with
        | TimedOut =>
            log LForcing;;
            err ← sys (Process_Signal pid SIGKILL);
            match err with
            | Some e => log (LSigkillFailed e)
            | None => mret tt
            end
        | Exited err =>
            match err with
            | Some e => log (LWaitFailed e)
            | None => mret tt
            end
        end;;
        map_delete service;;
        mret None
    end
    end).

(** [Stop] once more, with what another goroutine does while [Stop] is
    between its wait for the child (lines 456-475) and its delete (line
    478). [Stop] is [Stop_while] with nothing going on. *)
Definition Stop_while (during : M unit) (service : string) : M (option string) :=
  locked (
    command ← map_get service;
    match command with
    | None => mret (Some "service is not run")
    | Some command =>
    match Process command with
    | None => panic
    | Some pid =>
        err ← sys (Process_Signal pid SIGTERM);
        match err with
        | Some e => log (LSigtermFailed e)
        | None => mret tt
        end;;
        waited ← sys (Process_Wait_5s pid);
        match waited with
        | TimedOut =>
            log LForcing;;
            err ← sys (Process_Signal pid SIGKILL);
            match err with
            | Some e => log (LSigkillFailed e)
            | None => mret tt
            end
        | Exited err =>
            match err with
            | Some e => log (LWaitFailed e)
            | None => mret tt
            end
        end;;
        elsewhere during;;
        map_delete service;;
        mret None
    end
    end).

(** [Status]. *)
Definition Status (service : string) : M (string * option string) :=
  locked (
    path ← ask (find service);
    if String.eqb path "" then mret (EmptyString, Some "no service found")
    else
      command ← map_get service;
      match command with
      | None => mret ("exited", None)
      | Some command =>
          match Process command with
          | None => mret ("exited", None)
          | Some pid =>
              running ← ask (isProcessRunning pid);
              if negb (running : bool) then mret ("exited", None)
              else mret ("running", None)
          end
      end).

(** The [switch] of [handleConnection] and the reply after it; the
    result is what is written to the connection, if anything. *)
Definition dispatch (op name : string) : M (option string) :=
  if String.eqb op "enable" then
    log (LRequest "enable" name);; err ← Enable name; respond err
  else if String.eqb op "disable" then
    log (LRequest "disable" name);; err ← Disable name; respond err
  else if String.eqb op "start" then
    log (LRequest "start" name);; err ← Start name 5; respond err
  else if String.eqb op "stop" then
    log (LRequest "stop" name);; err ← Stop name; respond err
  else if String.eqb op "status" then
    log (LRequest "status" name);;
    r ← Status name;
    match r with
    | (_, Some err2) => respond (Some err2)
    | (res, None) => mret (Some res)
    end
  else if String.eqb op "reboot" then
    log LReboot;; os_Exit 0
  else respond None.

(** [handleConnection]; [read] is what [conn.Read] returned, [None] for
    an error. *)
Definition handleConnection (read : option string) : M (option string) :=
  match read with
  | None => mret None
  | Some msg =>
      match request_of msg with
      | None => mret None
      | Some (op, name) => dispatch op name
      end
  end.

(** The callback [Domain] passes to [filepath.Walk], at a directory
    entry that is not a directory. *)
Definition Domain_walk (name : string) : M unit :=
  if strings_HasSuffix name ".service" then
    if String.eqb name "e2scrub_reap.service" then mret tt
    else
      err ← Start (strings_TrimSuffix name ".service") 5;
      match err with
      | Some e => log (LAutostartFailed name e)
      | None => mret tt
      end
  else mret tt.

(** ** The daemon as a transition system

    What can happen to a running daemon: a client connects, the boot
    walk reaches an entry, a watched child exits, a watcher wakes from
    its sleep, or the world changes behind the daemon's back. Each
    handler runs as one step, a watcher goroutine in two, before and
    after its [time.Sleep].

    Among the control operations that is what the lock gives: each holds
    it from its first statement to its return. The first step of a
    watcher takes no lock, and in the program it may fall inside a
    control operation that waits for a child. What it shares with the
    operations is its one read of [mapCommand[service]] (line 419), and
    an operation changes the registry in one place ([Start] at line 400,
    [Stop] at line 478): the read sees the registry as it was before the
    operation or as it is after it. In a trace the step of the watcher
    stands before the operation when its read comes before that write,
    and after it otherwise. Both orders are traces and the program
    enforces neither; the log lines and signals in between are those of
    the order of the trace. [Stop_while] runs the step of the watcher
    where it falls in the program, inside [Stop].

    A trace ends where a handler is blocked for good, as it ends where
    the daemon panics or exits. *)
Inductive Event :=
| Connection (read : option string)
| Autostart (name : string)
| ChildExit (i : nat) (exitCode : Z)
| Wakeup (i : nat)
| Outside (w : World).

Definition step (ev : Event) : M unit :=
  match ev with
  | Connection read => handleConnection read;; mret tt
  | Autostart name => Domain_walk name
  | ChildExit i exitCode =>
      gs ← gets goroutines;
      match gs !! i with
      | Some (Watching service try pid systemdService) =>
          modify (with_goroutines (delete i gs));;
          sys (exits pid);;
          retry ← watcher_exited service systemdService exitCode;
          if (retry : bool) then go (Sleeping service try) else mret tt
      | _ => mret tt
      end
  | Wakeup i =>
      gs ← gets goroutines;
      match gs !! i with
      | Some (Sleeping service try) =>
          modify (with_goroutines (delete i gs));;
          watcher_retry service try
      | _ => mret tt
      end
  | Outside w => modify (with_world w)
  end.

Fixpoint run (evs : list Event) : M unit :=
  match evs with
  | [] => mret tt
  | ev :: evs' => step ev;; run evs'
  end.

End Supervisor.

(** ** Accounting for restarts *)

(** The restarts of [name] the daemon has attempted: its log lines
    "Attempting to restart service: name". *)
Fixpoint restarts (name : string) (l : list LogLine) : nat :=
  match l with
  | [] => 0
  | LAttempting service _ :: l' =>
      if String.eqb service name then S (restarts name l') else restarts name l'
  | _ :: l' => restarts name l'
  end.

(** [Start] was entered for [name]: a log line "Starting service: name". *)
Definition started (name : string) (l : list LogLine) : Prop :=
  ∃ try, LStarting name try ∈ l.

(** The attempts the goroutines of [name] still carry. *)
Definition attempts_of (name : string) (g : Goroutine) : nat :=
  match g with
  | Watching service try _ _ | Sleeping service try =>
      if String.eqb service name then Z.to_nat try else 0
  end.

Fixpoint budget (name : string) (gs : list Goroutine) : nat :=
  match gs with
  | [] => 0
  | g :: gs' => attempts_of name g + budget name gs'
  end.

(** The attempts an event hands to [name] from outside: 5 for a start
    request and for the boot walk reaching its unit, none otherwise. *)
Definition granted (name : string) (ev : Event) : nat :=
  match ev with
  | Connection (Some msg) =>
      match request_of msg with
      | Some (op, service) =>
          if String.eqb op "start" && String.eqb service name then 5 else 0
      | None => 0
      end
  | Autostart entry =>
      if strings_HasSuffix entry ".service"
         && negb (String.eqb entry "e2scrub_reap.service")
         && String.eqb (strings_TrimSuffix entry ".service") name
      then 5 else 0
  | _ => 0
  end%nat.

(** What running a piece of daemon code from [d] to [d'] may do to the
    books of [name] when it receives [k] attempts from outside: the log
    only grows, restarts made and attempts carried together grow by at
    most [k], and a registry entry for [name] is either old or comes
    with a logged [Start] of [name]. *)
Record effect (name : string) (k : nat) (d d' : Daemon) : Prop := {
  effect_logs : ∀ l, l ∈ logs d → l ∈ logs d';
  effect_credit :
    (restarts name (logs d') + budget name (goroutines d')
     ≤ restarts name (logs d) + budget name (goroutines d) + k)%nat;
  effect_registry :
    is_Some (mapCommand d' !! name) →
    is_Some (mapCommand d !! name) ∨ started name (logs d')
}.

Definition effects {A : Type} (name : string) (k : nat) (m : M A) : Prop :=
  ∀ d, effect name k d (state_of (m d)).

(** Code that hands out no attempts to any service. *)
Definition quiet {A : Type} (m : M A) : Prop := ∀ name, effects name 0 m.

(** The attempts a whole trace hands to [name]. *)
Definition granted_all (name : string) (evs : list Event) : nat :=
  foldr (λ ev acc, granted name ev + acc)%nat 0%nat evs.

(** What one field of [split[1:]] adds to [cmdArgs]. *)
Definition contribution (w : World) (s : string) : list string :=
  if strings_HasPrefix s "$"
  then if negb (String.eqb (os_Getenv w s) "") then [os_Getenv w s] else []
  else [s].

(** A log line that is not "Attempting to restart". *)
Definition plain (l : LogLine) : Prop :=
  match l with
  | LAttempting _ _ => False
  | _ => True
  end.

(** ** The lock discipline *)

(** Code that runs between [lock.Lock()] and [lock.Unlock()] keeps the
    lock and adds only accesses made under it. *)
Definition under_the_lock {A : Type} (m : M A) : Prop :=
  ∀ d, lock d = true →
       lock (state_of (m d)) = true ∧
       ∃ new, accesses (state_of (m d)) = new ++ accesses d ∧
              Forall (λ a, under_lock a = true) new.

(** ** The specification's wording, for comparison *)

(** The operations of the wire protocol. *)
Definition recognized (op : string) : bool :=
  existsb (String.eqb op) ["enable"; "disable"; "start"; "stop"; "status"; "reboot"].

(** The request as the specification words it: the message split on its
    first colon, a trailing [".service"] stripped from the name. *)
Definition claimed_request (msg : string) : option (string * string) :=
  match String.index 0 ":" msg with
  | None => None
  | Some n =>
      Some (String.substring 0 n msg,
            strings_TrimSuffix
              (String.substring (S n) (String.length msg - S n) msg) ".service")
  end.

(** The command line as the specification words it: no field of
    [ExecStart] that begins with ["$"] reaches the argument list as
    written. *)
Definition sigil_never_literal (w : World) (val : string) : Prop :=
  ∀ s, s ∈ strings_Split val " " →
       strings_HasPrefix s "$" = true →
       s ∉ Args (command_of w val "").

(** ** Concrete scenarios *)

Definition sleep_unit : string :=
  unlines ["[Unit]"; "Description=sleeper"; "[Service]";
           "ExecStart=/bin/sleep 100"; "Restart=always"].

Definition false_unit : string :=
  unlines ["[Service]"; "ExecStart=/bin/false"; "Restart=on-failure"].

Definition broken_unit : string :=
  unlines ["[Service]"; "WorkingDirectory=/srv"].

Definition ghost_unit : string :=
  unlines ["[Service]"; "ExecStart=/opt/ghost --serve"].

(** A container with four unit files, two executables and [CMD] set. *)
Definition sample_world : World :=
  {| fs := {[ unit_path usrPath "sleep" := File sleep_unit;
              unit_path sysPath "false" := File false_unit;
              unit_path usrPath "broken" := File broken_unit;
              unit_path usrPath "ghost" := File ghost_unit ]};
     environ := {[ "CMD" := "/bin/true"; "HOME" := "/root" ]};
     executables := {[ "/bin/sleep"; "/bin/false" ]};
     alive := ∅;
     stubborn := ∅;
     next_pid := 100;
     delivered := [] |}.

(** The same container with [sleep] already enabled. *)
Definition enabled_world : World :=
  with_fs (<[unit_path enablePath "sleep" := Link (unit_path usrPath "sleep")]>
             (fs sample_world)) sample_world.

(** The options [simple_Deserialize] reads from [false_unit] and
    [broken_unit]. *)
Definition false_opts : list UnitOption :=
  [{| Section_ := "Service"; Name := "ExecStart"; Value := "/bin/false" |};
   {| Section_ := "Service"; Name := "Restart"; Value := "on-failure" |}].

Definition broken_opts : list UnitOption :=
  [{| Section_ := "Service"; Name := "WorkingDirectory"; Value := "/srv" |}].

Definition ghost_opts : list UnitOption :=
  [{| Section_ := "Service"; Name := "ExecStart"; Value := "/opt/ghost --serve" |}].

(** The daemon after [Start("false", 3)] in the sample container. *)
Definition false_running : Daemon :=
  state_of (Start simple_Deserialize "false" 3 (boot sample_world)).

(** A daemon that runs [broken] as PID 7, launched from an earlier
    version of its unit file. *)
Definition old_command : Cmd :=
  {| Path := "/bin/sleep"; Args := ["/bin/sleep"; "100"]; Dir := "/root";
     Process := Some 7; Err_ := None |}.

Definition broken_running : Daemon :=
  with_mapCommand {[ "broken" := old_command ]}
    (boot (with_alive {[ 7 ]} sample_world)).

(** The same daemon when PID 7 ignores [SIGTERM]. *)
Definition deaf_running : Daemon :=
  with_mapCommand {[ "broken" := old_command ]}
    (boot {| fs := fs sample_world; environ := environ sample_world;
             executables := executables sample_world;
             alive := {[ 7 ]}; stubborn := {[ 7 ]};
             next_pid := 100; delivered := [] |}).

(** A container whose unit [echo] passes [$HOME] to its command, with
    [HOME] set. *)
Definition echo_unit : string :=
  unlines ["[Service]"; "ExecStart=/bin/echo $HOME"].

Definition echo_world : World :=
  {| fs := {[ unit_path usrPath "echo" := File echo_unit ]};
     environ := {[ "HOME" := "/root" ]};
     executables := {[ "/bin/echo" ]};
     alive := ∅;
     stubborn := ∅;
     next_pid := 100;
     delivered := [] |}.

(** A child that keeps failing: it exits with code 1 and its watcher
    wakes up, [k] times over. *)
Fixpoint keeps_failing (k : nat) : list Event :=
  match k with
  | O => []
  | S k' => ChildExit 0 1 :: Wakeup 0 :: keeps_failing k'
  end.

(** ** The client side of main.go *)

(** What the socket gives a client that writes one message: the daemon
    could not be reached, the write or the read failed, or the bytes
    that [conn.Read] returned. *)
Inductive Exchange :=
| DialFailed (err : string)
| WriteFailed (err : string)
| ReadFailed (err : string)
| Received (response : string).

(** [send]; [socket] stands for [net.Dial], [conn.Write] and
    [conn.Read] on [socketPath]. *)
Definition send (socket : string → Exchange) (service op : string) : string :=
  let msg := op +:+ ":" +:+ service in
  match socket msg with
  | DialFailed err => "Error connecting to daemon: " +:+ err
  | WriteFailed err => "Error sending message: " +:+ err
  | ReadFailed err => "Error reading response: " +:+ err
  | Received response => response
  end.

(** What one run of the program did: the calls of [send] it made, as
    [(service, op)], the lines it logged and the lines it printed; or it
    went on as the daemon; or it stopped on [os.Args[0]] with an empty
    [os.Args]. *)
Inductive Ran :=
| IndexOutOfRange
| Finished (asked : list (string * string)) (logged out : list string)
| Daemonized (logged : list string).

Definition usage : string :=
  "Usage: systemctl [enable|disable|start|stop|restart|status|domain] [service]".

(** [main]. The six cases that need a service name are the same code
    with another announcement and operation; [request] is that code. *)
Definition main (socket : string → Exchange) (args : list string) : Ran :=
  match args with
  | [] => IndexOutOfRange
  | arg0 :: _ =>
      if strings_Contains arg0 "reboot" then Finished [("reboot", "reboot")] [] []
      else if (length args <? 2)%nat then Finished [] [] [usage]
      else
        let request (announce op : string) :=
          if (length args <? 3)%nat
          then Finished [] [] ["Error: service name required"]
          else Finished [(nth 2 args "", op)]
                        [announce +:+ nth 2 args ""]
                        [send socket (nth 2 args "") op] in
        let arg1 := nth 1 args "" in
        if String.eqb arg1 "enable" then request "Enabling service: " "enable"
        else if String.eqb arg1 "disable" then request "Disabling service: " "disable"
        else if String.eqb arg1 "start" then request "Starting service: " "start"
        else if String.eqb arg1 "stop" then request "Stopping service: " "stop"
        else if String.eqb arg1 "restart" then request "Restarting service: " "restart"
        else if String.eqb arg1 "status" then request "Checking service status: " "status"
        else if String.eqb arg1 "domain" then Daemonized ["Starting daemon process"]
        else if String.eqb arg1 "--version" then Finished [] [] ["systemd 226"]
        else Finished [] [] ["Unknown command: " +:+ arg1; usage]
  end.

Section BothEnds.

Variable Deserialize : string → result (list UnitOption).

(** A daemon in state [d] at the other end of the socket: it accepts,
    its [conn.Read] returns the message in one piece, cut at its buffer
    of 1024 bytes, and the client reads what [handleConnection] wrote,
    cut at its own 1024 bytes, or the end of the stream when nothing was
    written before the connection or the daemon was gone. When the
    handler is blocked the connection stays open and silent: the
    [conn.Read] of the client, which sets no deadline, never returns,
    and there is no exchange, [None]. *)
Definition served (d : Daemon) (msg : string) : option Exchange :=
  match handleConnection Deserialize (Some (String.substring 0 1024 msg)) d with
  | Done (Some reply) _ =>
      if String.eqb reply "" then Some (ReadFailed "EOF")
      else Some (Received (String.substring 0 1024 reply))
  | Blocked _ => None
  | _ => Some (ReadFailed "EOF")
  end.

(** The daemon after it has handled that message. *)
Definition after (d : Daemon) (msg : string) : Daemon :=
  state_of (handleConnection Deserialize (Some (String.substring 0 1024 msg)) d).

(** The boot walk of [Domain]: [filepath.Walk] calls its callback on the
    entries of [enablePath] in its order; [names] are those of the
    entries that are not directories. The callback returns [nil]
    whatever [Start] returned, so the walk goes on. *)
Fixpoint Domain_autostart (names : list string) : M unit :=
  match names with
  | [] => mret tt
  | name :: rest => Domain_walk Deserialize name;; Domain_autostart rest
  end.

End BothEnds.

(** ** Relations a piece of code may keep *)

(** [m] takes every state to one related to it by [R], also when it
    panics or exits. *)
Definition preserved (R : Daemon → Daemon → Prop) {A : Type} (m : M A) : Prop :=
  ∀ d, R d (state_of (m d)).

(** Nothing but the file system, the lock and the access record
    differs. *)
Definition inert (d d' : Daemon) : Prop :=
  mapCommand d' = mapCommand d ∧ goroutines d' = goroutines d ∧
  logs d' = logs d ∧ alive (world d') = alive (world d) ∧
  next_pid (world d') = next_pid (world d) ∧
  delivered (world d') = delivered (world d).

(** The waiting goroutines are the same and no restart was logged. *)
Definition same_watchers (d d' : Daemon) : Prop :=
  goroutines d' = goroutines d ∧
  ∀ name, restarts name (logs d') = restarts name (logs d).

(** The attempts a goroutine carries. *)
Definition try_of (g : Goroutine) : Z :=
  match g with
  | Watching _ try _ _ | Sleeping _ try => try
  end.

(** A goroutine carries between 0 and 5 attempts. *)
Definition in_budget (g : Goroutine) : Prop := 0 ≤ try_of g ≤ 5.

(** If all goroutines were within the budget, they still are. *)
Definition stays_in_budget (d d' : Daemon) : Prop :=
  Forall in_budget (goroutines d) → Forall in_budget (goroutines d').

(** An access to the registry that is made under the lock, or else only
    reads it. *)
Definition guarded_or_read (a : Access) : Prop :=
  under_lock a = true ∨ kind a = MapRead.

(** The accesses made from [d] to [d'] are all of that kind. *)
Definition adds_guarded (d d' : Daemon) : Prop :=
  ∃ new, accesses d' = new ++ accesses d ∧ Forall guarded_or_read new.

(** The options [simple_Deserialize] reads from [sleep_unit], and the
    daemon after [Start("sleep", 5)] in the sample container. *)
Definition sleep_opts : list UnitOption :=
  [{| Section_ := "Unit"; Name := "Description"; Value := "sleeper" |};
   {| Section_ := "Service"; Name := "ExecStart"; Value := "/bin/sleep 100" |};
   {| Section_ := "Service"; Name := "Restart"; Value := "always" |}].

Definition sleep_running : Daemon :=
  state_of (Start simple_Deserialize "sleep" 5 (boot sample_world)).

(** * Properties *)

(** ** Strings *)

Lemma append_cons (c : ascii) (s t : string) : String c s +:+ t = String c (s +:+ t).
Proof. reflexivity. Qed.

Lemma append_empty_l (s : string) : "" +:+ s = s.
Proof. reflexivity. Qed.

Lemma append_empty_r (s : string) : s +:+ "" = s.
Proof.
  induction s as [|c s IH]; [reflexivity |].
  now rewrite append_cons, IH.
Qed.

Lemma prefix_refl (s : string) : String.prefix s s = true.
Proof.
  induction s as [|c s IH]; simpl; [reflexivity |].
  destruct (ascii_dec c c); [assumption | congruence].
Qed.

Lemma prefix_cons (a b : ascii) (p s : string) :
  String.prefix (String a p) (String b s) = Ascii.eqb a b && String.prefix p s.
Proof.
  simpl. destruct (ascii_dec a b) as [->|Hne].
  - now rewrite Ascii.eqb_refl.
  - apply Ascii.eqb_neq in Hne. now rewrite Hne.
Qed.

Lemma prefix_empty (s : string) : String.prefix "" s = true.
Proof. now destruct s. Qed.

(** A one-byte pattern occurs in [String a s] iff it is [a] or occurs in [s]. *)
Lemma Contains_byte_cons (a c : ascii) (s : string) :
  strings_Contains (String a s) (String c "") =
  Ascii.eqb c a || strings_Contains s (String c "").
Proof.
  cbn [strings_Contains]. rewrite prefix_cons, prefix_empty.
  now rewrite andb_true_r.
Qed.

Lemma Contains_cons_false (a : ascii) (s sub : string) :
  strings_Contains (String a s) sub = false →
  String.prefix sub (String a s) = false ∧ strings_Contains s sub = false.
Proof. cbn [strings_Contains]. intros H. now apply orb_false_elim in H. Qed.

Example Split_at_colons :
  strings_Split "start:nginx.service" ":" = ["start"; "nginx.service"] ∧
  strings_Split "garbage" ":" = ["garbage"] ∧
  strings_Split "" ":" = [""] ∧
  strings_Split "/bin/echo  a" " " = ["/bin/echo"; ""; "a"].
Proof. repeat split. Qed.

(** [handleConnection] removes every [".service"] from the name it
    receives, where the boot walk of [Domain] trims the suffix. *)
Example ReplaceAll_and_TrimSuffix :
  strings_ReplaceAll "nginx.service" ".service" "" = "nginx" ∧
  strings_TrimSuffix "nginx.service" ".service" = "nginx" ∧
  strings_ReplaceAll "my.services.service" ".service" "" = "mys" ∧
  strings_TrimSuffix "my.services.service" ".service" = "my.services".
Proof. repeat split. Qed.

(** *** [strings.Split] *)

Lemma Split_nonempty (s : string) (sep : ascii) : strings_Split s sep ≠ [].
Proof.
  induction s as [|c s IH]; simpl; [discriminate |].
  destruct (Ascii.eqb c sep); [discriminate |].
  destruct (strings_Split s sep); discriminate.
Qed.

Lemma Split_absent (s : string) (sep : ascii) :
  strings_Contains s (String sep "") = false → strings_Split s sep = [s].
Proof.
  induction s as [|c s IH]; intros H; [reflexivity |].
  rewrite Contains_byte_cons in H. apply orb_false_elim in H as [Hc Hs].
  simpl. rewrite Ascii.eqb_sym, Hc, (IH Hs). reflexivity.
Qed.

Lemma Split_first (a b : string) (sep : ascii) :
  strings_Contains a (String sep "") = false →
  strings_Split (a +:+ String sep b) sep = a :: strings_Split b sep.
Proof.
  induction a as [|c a IH]; intros H.
  - rewrite append_empty_l. simpl. now rewrite Ascii.eqb_refl.
  - rewrite Contains_byte_cons in H. apply orb_false_elim in H as [Hc Ha].
    rewrite append_cons. simpl.
    rewrite Ascii.eqb_sym, Hc, (IH Ha). reflexivity.
Qed.

Lemma Split_present (s : string) (sep : ascii) :
  strings_Contains s (String sep "") = true →
  (2 ≤ length (strings_Split s sep))%nat.
Proof.
  induction s as [|c s IH]; intros H; [discriminate |].
  rewrite Contains_byte_cons in H. simpl.
  destruct (Ascii.eqb c sep) eqn:Hc.
  - pose proof (Split_nonempty s sep).
    destruct (strings_Split s sep); [congruence | simpl; lia].
  - rewrite Ascii.eqb_sym, Hc in H. simpl in H. specialize (IH H).
    destruct (strings_Split s sep); simpl in *; lia.
Qed.

(** *** [strings.ReplaceAll] *)

Lemma replace_scan_skip_all (k : nat) (s old new : string) :
  (String.length s ≤ k)%nat → replace_scan k s old new = "".
Proof.
  revert k. induction s as [|c s IH]; intros k Hk; [reflexivity |].
  simpl in *. destruct k as [|k]; [lia |]. apply IH. lia.
Qed.

Lemma ReplaceAll_absent (s old new : string) :
  strings_Contains s old = false → strings_ReplaceAll s old new = s.
Proof.
  unfold strings_ReplaceAll. induction s as [|c s IH]; intros H; [reflexivity |].
  apply Contains_cons_false in H as [Hp Hs].
  cbn [replace_scan]. rewrite Hp, (IH Hs). reflexivity.
Qed.

(** A pattern without the byte [d] that starts inside [y] and is a prefix
    of [y] followed by [d] lies inside [y]. *)
Lemma prefix_fits (r y z : string) (d : ascii) :
  strings_Contains r (String d "") = false →
  String.prefix r (y +:+ String d z) = true → String.prefix r y = true.
Proof.
  revert y. induction r as [|e r IH]; intros y Hd Hp; [apply prefix_empty |].
  rewrite Contains_byte_cons in Hd. apply orb_false_elim in Hd as [Hed Hr].
  destruct y as [|f y]; [rewrite append_empty_l in Hp | rewrite append_cons in Hp];
    simpl in Hp |- *.
  - destruct (ascii_dec e d) as [->|]; [| discriminate].
    now rewrite Ascii.eqb_refl in Hed.
  - destruct (ascii_dec e f); [| discriminate]. now apply IH.
Qed.

(** A pattern whose first byte does not recur in it cannot straddle the
    boundary between [x] and a following copy of itself. *)
Lemma prefix_no_straddle (d : ascii) (rest x : string) :
  strings_Contains rest (String d "") = false →
  String.prefix (String d rest) (x +:+ String d rest) = true →
  x = "" ∨ String.prefix (String d rest) x = true.
Proof.
  intros Hd Hp. destruct x as [|f x]; [now left | right].
  rewrite append_cons in Hp. simpl in Hp |- *. destruct (ascii_dec d f); [| discriminate].
  now apply prefix_fits in Hp.
Qed.

Lemma ReplaceAll_trailing (d : ascii) (rest base new : string) :
  strings_Contains rest (String d "") = false →
  strings_Contains base (String d rest) = false →
  strings_ReplaceAll (base +:+ String d rest) (String d rest) new = base +:+ new.
Proof.
  intros Hd. unfold strings_ReplaceAll.
  induction base as [|c base IH]; intros Hb.
  - rewrite !append_empty_l. cbn [replace_scan]. rewrite prefix_refl.
    rewrite replace_scan_skip_all by (simpl; lia).
    now rewrite append_empty_r.
  - apply Contains_cons_false in Hb as [Hp Hs].
    rewrite !append_cons. cbn [replace_scan].
    destruct (String.prefix (String d rest) (String c (base +:+ String d rest))) eqn:Hq.
    + rewrite <- append_cons in Hq.
      apply (prefix_no_straddle d rest (String c base)) in Hq as [Hq|Hq];
        [discriminate | congruence | assumption].
    + now rewrite (IH Hs).
Qed.

(** ** Running monadic code *)

Ltac unfold_m :=
  unfold locked, elsewhere, command_Start, respond, map_get, map_set, map_delete;
  unfold lock_Lock, lock_Unlock, record, go, log, ask;
  unfold sys, blocking, gets, modify, panic, os_Exit;
  unfold mbind, M_bind, mret, M_ret.

Lemma recognized_false (op : string) :
  recognized op = false →
  String.eqb op "enable" = false ∧ String.eqb op "disable" = false ∧
  String.eqb op "start" = false ∧ String.eqb op "stop" = false ∧
  String.eqb op "status" = false ∧ String.eqb op "reboot" = false.
Proof.
  unfold recognized. cbn [existsb]. intros H.
  repeat (apply orb_false_elim in H as [? H]). auto 10.
Qed.

Lemma request_of_present (msg : string) :
  strings_Contains msg ":" = true →
  request_of msg =
    Some (nth 0 (strings_Split msg ":") "",
          strings_ReplaceAll (nth 1 (strings_Split msg ":") "") ".service" "").
Proof.
  intros H. apply Split_present in H. unfold request_of.
  destruct (Nat.ltb_spec (length (strings_Split msg ":")) 2); [lia | reflexivity].
Qed.

Lemma request_of_absent (msg : string) :
  strings_Contains msg ":" = false → request_of msg = None.
Proof. intros H. unfold request_of. now rewrite (Split_absent _ _ H). Qed.

Section Protocol.

Variable Deserialize : string → result (list UnitOption).

(** The [switch] of [handleConnection] has no default. A well-delimited
    message whose operation is none of enable, disable, start, stop,
    status and reboot reaches no engine operation and leaves the daemon
    as it was; [err] is still the [nil] of the read, and the handler
    writes ["success"] back. *)
Lemma unknown_operation_answers_success (msg : string) (d : Daemon) :
  strings_Contains msg ":" = true →
  recognized (nth 0 (strings_Split msg ":") "") = false →
  handleConnection Deserialize (Some msg) d = Done (Some "success") d.
Proof.
  intros Hcolon Hop. unfold handleConnection.
  rewrite (request_of_present _ Hcolon).
  apply recognized_false in Hop as (H1 & H2 & H3 & H4 & H5 & H6).
  unfold dispatch. now rewrite H1, H2, H3, H4, H5, H6.
Qed.

(** C5 (the code at its failing input). [systemctl restart nginx] makes
    the client call [send] for the service [nginx] and the operation
    [restart], and the message [send] writes is ["restart:nginx"] (an
    echoing socket shows it). [restart] is none of the operations the
    [switch] of the daemon has a case for, and in whatever state the
    daemon is, the handler does not drop the message in silence: it
    writes ["success"] back, with the daemon as it was and nothing
    restarted. *)
Theorem C5_restart_is_answered (socket : string → Exchange) (d : Daemon) :
  main socket ["systemctl"; "restart"; "nginx"] =
    Finished [("nginx", "restart")] ["Restarting service: nginx"]
             [send socket "nginx" "restart"] ∧
  send (λ msg, Received msg) "nginx" "restart" = "restart:nginx" ∧
  recognized "restart" = false ∧
  handleConnection Deserialize (Some "restart:nginx") d = Done (Some "success") d.
Proof.
  split; [reflexivity |]. split; [reflexivity |]. split; [reflexivity |].
  now apply unknown_operation_answers_success.
Qed.

(** C6 (as the code has it). A message without a colon, and a failed
    read, are dropped with no reply; otherwise the operation is the text
    before the first colon and the service name is the text between the
    first colon and the second one, if there is a second; a trailing
    [".service"] is stripped from a name that holds [".service"] nowhere
    else, and a name without [".service"] is dispatched as it is. *)
Theorem C6_request_fields (d : Daemon) :
  handleConnection Deserialize None d = Done None d ∧
  (∀ msg, strings_Contains msg ":" = false →
          handleConnection Deserialize (Some msg) d = Done None d) ∧
  (∀ op field,
      strings_Contains op ":" = false → strings_Contains field ":" = false →
      handleConnection Deserialize (Some (op +:+ ":" +:+ field)) d =
        dispatch Deserialize op (strings_ReplaceAll field ".service" "") d ∧
      ∀ rest,
        handleConnection Deserialize (Some (op +:+ ":" +:+ field +:+ ":" +:+ rest)) d =
          dispatch Deserialize op (strings_ReplaceAll field ".service" "") d) ∧
  (∀ base, strings_Contains base ".service" = false →
           strings_ReplaceAll (base +:+ ".service") ".service" "" = base ∧
           strings_ReplaceAll base ".service" "" = base).
Proof.
  split; [reflexivity |]. split; [| split].
  - intros msg H. unfold handleConnection. now rewrite (request_of_absent _ H).
  - intros op field Hop Hfield. split; [| intros rest]; unfold handleConnection, request_of.
    + change (":" +:+ field) with (String ":" field).
      rewrite (Split_first op field ":" Hop), (Split_absent field ":" Hfield).
      reflexivity.
    + change (":" +:+ field +:+ ":" +:+ rest) with (String ":" (field +:+ String ":" rest)).
      rewrite (Split_first op _ ":" Hop), (Split_first field rest ":" Hfield).
      pose proof (Split_nonempty rest ":").
      destruct (strings_Split rest ":"); [congruence | reflexivity].
  - intros base H. split.
    + rewrite (ReplaceAll_trailing "." "service" base "" eq_refl H).
      apply append_empty_r.
    + now apply ReplaceAll_absent.
Qed.

End Protocol.

(** ** The command line of [Start] *)

Lemma cmdArgs_of_flat_map (w : World) (fields : list string) :
  cmdArgs_of w fields = flat_map (contribution w) fields.
Proof.
  induction fields as [|s rest IH]; [reflexivity |].
  cbn [cmdArgs_of flat_map]. unfold contribution at 1.
  destruct (strings_HasPrefix s "$"); [| now rewrite IH].
  destruct (negb (String.eqb (os_Getenv w s) "")); now rewrite IH.
Qed.

Lemma exec_Command_Args (w : World) (name : string) (arg : list string) :
  Args (exec_Command w name arg) = name :: arg ∧
  Process (exec_Command w name arg) = None.
Proof.
  unfold exec_Command. destruct (String.eqb name "/"); [now split |].
  destruct (String.eqb name "" || strings_Contains name "/"); [now split |].
  destruct (exec_LookPath w name); now split.
Qed.

(** A name with a slash, other than ["/"], is the path as it stands, and
    no lookup is made. *)
Lemma exec_Command_Path (w : World) (name : string) (arg : list string) :
  strings_Contains name "/" = true → name ≠ "/" →
  Path (exec_Command w name arg) = name ∧ Err_ (exec_Command w name arg) = None.
Proof.
  intros Hslash Hne. unfold exec_Command.
  destruct (String.eqb_spec name "/"); [contradiction |].
  rewrite Hslash, orb_true_r. now split.
Qed.

Lemma command_of_Args (w : World) (val val2 : string) :
  Args (command_of w val val2) =
    hd "" (strings_Split val " ") :: cmdArgs_of w (tail (strings_Split val " ")).
Proof.
  unfold command_of. destruct (negb (String.eqb val2 "")); apply exec_Command_Args.
Qed.

Lemma command_of_Path (w : World) (val val2 : string) :
  strings_Contains (hd "" (strings_Split val " ")) "/" = true →
  hd "" (strings_Split val " ") ≠ "/" →
  Path (command_of w val val2) = hd "" (strings_Split val " ") ∧
  Err_ (command_of w val val2) = None.
Proof.
  intros Hslash Hne. unfold command_of.
  destruct (negb (String.eqb val2 "")); now apply exec_Command_Path.
Qed.

(** The argument list of the command: [ExecStart] is split at every
    single space, the first field is [Args[0]], and every later field
    adds its [contribution]: itself when it does not begin with ["$"],
    and otherwise the value [os.Getenv] has for the field as it stands,
    sigil included, when that value is not empty. *)
Lemma command_line (w : World) (val val2 : string) :
  ∃ exe rest,
    strings_Split val " " = exe :: rest ∧
    Args (command_of w val val2) = exe :: flat_map (contribution w) rest.
Proof.
  pose proof (command_of_Args w val val2) as HA.
  pose proof (Split_nonempty val " ") as Hne.
  destruct (strings_Split val " ") as [|exe rest] eqn:Hsplit; [congruence |].
  exists exe, rest. simpl in HA. now rewrite cmdArgs_of_flat_map in HA.
Qed.

(** The variable that a field names is never consulted: two environments
    that agree on the names that begin with ["$"] give the same argument
    list, whatever the values of all other variables. *)
Lemma sigil_names_only (w w' : World) (fields : list string) :
  (∀ key, strings_HasPrefix key "$" = true → environ w !! key = environ w' !! key) →
  cmdArgs_of w fields = cmdArgs_of w' fields.
Proof.
  intros H. induction fields as [|s rest IH]; [reflexivity |].
  cbn [cmdArgs_of]. rewrite IH.
  destruct (strings_HasPrefix s "$") eqn:Hs; [| reflexivity].
  unfold os_Getenv. now rewrite (H s Hs).
Qed.

(** C7 (the code at its failing input). [HOME] is set to ["/root"] and
    the unit [echo] has [ExecStart=/bin/echo $HOME]. The loop of [Start]
    calls [os.Getenv] with the field as it stands, ["$HOME"], sigil
    included (line 384); no variable has that name, the value is empty
    and the field is dropped: the child is launched with no argument,
    where the specification has ["$HOME"] replaced by ["/root"]. A
    variable whose name does begin with the sigil is what the lookup
    finds. *)
Theorem C7_sigil_is_part_of_the_key :
  os_Getenv echo_world "HOME" = "/root" ∧
  (∃ d' command,
     Start simple_Deserialize "echo" 5 (boot echo_world) = Done None d' ∧
     mapCommand d' !! "echo" = Some command ∧
     Args command = ["/bin/echo"]) ∧
  cmdArgs_of (with_environ {[ "$HOME" := "/srv" ]} echo_world) ["$HOME"] = ["/srv"].
Proof.
  split; [reflexivity |]. split; [| reflexivity].
  eexists _, _. split; [vm_compute; reflexivity |].
  split; vm_compute; reflexivity.
Qed.

(** ** The enablement store: [Enable] and [Disable] *)

Lemma unit_path_nonempty (dir service : string) :
  dir ≠ "" → unit_path dir service ≠ "".
Proof.
  unfold unit_path. destruct dir as [|c dir]; [congruence |].
  intros _. rewrite append_cons. discriminate.
Qed.

(** [find] fails exactly when neither directory holds the unit file. *)
Lemma find_unresolved (service : string) (w : World) :
  find service w = "" ↔
  os_Stat w (unit_path usrPath service) = false ∧
  os_Stat w (unit_path sysPath service) = false.
Proof.
  unfold find.
  destruct (os_Stat w (unit_path usrPath service)) eqn:Hu.
  - split; [intros H | intros [? _]; discriminate].
    now apply unit_path_nonempty in H.
  - destruct (os_Stat w (unit_path sysPath service)) eqn:Hs.
    + split; [intros H | intros [_ ?]; discriminate].
      now apply unit_path_nonempty in H.
    + now split.
Qed.

Lemma Enable_outcome (service : string) (d : Daemon) :
  ∃ r d', Enable service d = Done r d' ∧
    mapCommand d' = mapCommand d ∧
    (is_Some r ↔
       find service (world d) = "" ∨
       is_Some (fs (world d) !! unit_path enablePath service)) ∧
    (r = None →
       fs (world d') =
         <[unit_path enablePath service := Link (find service (world d))]>
           (fs (world d))) ∧
    (is_Some r → world d' = world d).
Proof.
  unfold Enable. unfold_m. simpl.
  destruct (String.eqb_spec (find service (world d)) "") as [Hf|Hf].
  - eexists _, _. split; [reflexivity |]. simpl.
    repeat split; eauto; discriminate.
  - unfold os_Symlink. simpl.
    destruct (fs (world d) !! unit_path enablePath service) as [n|] eqn:Hl; simpl.
    + eexists _, _. split; [reflexivity |]. simpl.
      repeat split; eauto; discriminate.
    + eexists _, _. split; [reflexivity |]. simpl.
      repeat split; try reflexivity.
      * intros [e He]. discriminate.
      * intros [H|[n H]]; [contradiction | discriminate].
      * intros [e He]. discriminate.
Qed.

Lemma Disable_outcome (service : string) (d : Daemon) :
  ∃ r d', Disable service d = Done r d' ∧
    mapCommand d' = mapCommand d ∧
    (is_Some r ↔ fs (world d) !! unit_path enablePath service = None) ∧
    fs (world d') = delete (unit_path enablePath service) (fs (world d)).
Proof.
  unfold Disable. unfold_m. simpl. unfold os_Remove.
  destruct (fs (world d) !! unit_path enablePath service) as [n|] eqn:Hl; simpl.
  - eexists _, _. split; [reflexivity |]. simpl.
    repeat split; try reflexivity; [intros [e He] |]; discriminate.
  - eexists _, _. split; [reflexivity |]. simpl.
    repeat split; eauto. symmetry. now apply delete_id.
Qed.

(** C8 (as the code has it). [Enable] returns an error exactly when the
    unit file cannot be resolved or a file already sits at the place of
    the enablement symlink, and creates the symlink to the resolved unit
    otherwise; [Disable] returns an error exactly when nothing sits at
    that place, and removes the symlink otherwise; after [Enable]
    followed by [Disable] the symlink is absent. *)
Theorem C8_enable_disable (service : string) (d : Daemon) :
  (∃ r d', Enable service d = Done r d' ∧
     (is_Some r ↔
        find service (world d) = "" ∨
        is_Some (fs (world d) !! unit_path enablePath service)) ∧
     (r = None →
        fs (world d') !! unit_path enablePath service =
          Some (Link (find service (world d))))) ∧
  (∃ r d', Disable service d = Done r d' ∧
     (is_Some r ↔ fs (world d) !! unit_path enablePath service = None) ∧
     fs (world d') !! unit_path enablePath service = None) ∧
  (∃ r1 d1 r2 d2,
     Enable service d = Done r1 d1 ∧ Disable service d1 = Done r2 d2 ∧
     fs (world d2) !! unit_path enablePath service = None).
Proof.
  destruct (Enable_outcome service d) as (r1 & d1 & He & _ & Hr1 & Hok & _).
  destruct (Disable_outcome service d) as (r & d' & Hd & _ & Hr & Hfs).
  destruct (Disable_outcome service d1) as (r2 & d2 & Hd2 & _ & _ & Hfs2).
  repeat split.
  - exists r1, d1. repeat split; try apply Hr1; [assumption |].
    intros Hnone. rewrite (Hok Hnone). apply lookup_insert_eq.
  - exists r, d'. repeat split; try apply Hr; [assumption |].
    rewrite Hfs. apply lookup_delete_eq.
  - exists r1, d1, r2, d2. repeat split; try assumption.
    rewrite Hfs2. apply lookup_delete_eq.
Qed.

(** ** [Stop] *)

Lemma not_elem_of_gone (pid : Z) (pids : gset Z) : pid ∉ pids ∖ {[pid]}.
Proof.
  intros [_ H]%elem_of_difference. apply H. now apply elem_of_singleton.
Qed.

(** What [Stop] does, path by path: the error when nothing is
    registered, the panic on a registered command that was never
    launched, and for a launched one the graceful, the forced and the
    already-exited path, told apart by the signals delivered. *)
Lemma Stop_outcome (service : string) (d : Daemon) :
  match mapCommand d !! service with
  | None =>
      ∃ d', Stop service d = Done (Some "service is not run") d' ∧
            mapCommand d' = mapCommand d ∧ world d' = world d
  | Some command =>
      match Process command with
      | None => ∃ d', Stop service d = Panic d'
      | Some pid =>
          ∃ d', Stop service d = Done None d' ∧
                mapCommand d' = delete service (mapCommand d) ∧
                (pid ∉ alive (world d')) ∧
                delivered (world d') =
                  (if decide (pid ∈ alive (world d))
                   then if decide (pid ∈ stubborn (world d))
                        then (pid, SIGKILL) :: (pid, SIGTERM) :: delivered (world d)
                        else (pid, SIGTERM) :: delivered (world d)
                   else delivered (world d))
      end
  end.
Proof.
  unfold Stop. unfold_m. simpl.
  destruct (mapCommand d !! service) as [c|] eqn:Hc; [| eauto].
  destruct (Process c) as [pid|] eqn:Hp; [| eauto].
  unfold Process_Signal, Process_Wait_5s. simpl.
  destruct (decide (pid ∈ alive (world d))) as [Ha|Ha]; simpl.
  - rewrite (decide_True (P := pid ∈ alive (world d))) by assumption.
    destruct (decide (pid ∈ stubborn (world d))) as [Hs|Hs]; simpl.
    + rewrite (decide_True (P := pid ∈ alive (world d))) by assumption. simpl.
      eexists. split; [reflexivity |]. simpl. repeat split. apply not_elem_of_gone.
    + eexists. split; [reflexivity |]. simpl. repeat split. apply not_elem_of_gone.
  - rewrite (decide_False (P := pid ∈ alive (world d))) by assumption. simpl.
    eexists. split; [reflexivity |]. simpl. repeat split. assumption.
Qed.

Lemma Stop_while_nothing (service : string) (d : Daemon) :
  Stop_while (mret tt) service d = Stop service d.
Proof.
  unfold Stop_while, Stop. unfold_m. simpl.
  destruct (mapCommand d !! service) as [c|]; [| reflexivity].
  destruct (Process c) as [pid|]; [| reflexivity].
  unfold Process_Signal, Process_Wait_5s. simpl.
  destruct (decide (pid ∈ alive (world d))) as [Ha|Ha]; simpl.
  - rewrite (decide_True (P := pid ∈ alive (world d))) by assumption.
    destruct (decide (pid ∈ stubborn (world d))); simpl; [| reflexivity].
    now rewrite (decide_True (P := pid ∈ alive (world d))) by assumption.
  - now rewrite (decide_False (P := pid ∈ alive (world d))) by assumption.
Qed.

(** C3. [Stop] returns an error exactly when the registry holds nothing
    for the name. When it holds a launched process, [Stop] returns
    without error and the registry holds no entry for the name
    afterwards, whichever way the child went (see [Stop_outcome]); and
    whenever [Stop] returns, the entry is gone. *)
Theorem C3_stop_clears_registry (service : string) (d : Daemon) :
  ((∃ e d', Stop service d = Done (Some e) d') ↔ mapCommand d !! service = None) ∧
  (∀ command pid,
      mapCommand d !! service = Some command → Process command = Some pid →
      ∃ d', Stop service d = Done None d' ∧ mapCommand d' !! service = None) ∧
  (∀ r d', Stop service d = Done r d' → mapCommand d' !! service = None).
Proof.
  pose proof (Stop_outcome service d) as H.
  destruct (mapCommand d !! service) as [c|] eqn:Hc.
  - destruct (Process c) as [pid|] eqn:Hp.
    + destruct H as (d1 & Hrun & Hmap & _). repeat split.
      * intros (e & d' & He). congruence.
      * discriminate.
      * intros c' pid' _ _. exists d1. split; [assumption |].
        rewrite Hmap. apply lookup_delete_eq.
      * intros r d' Hr. rewrite Hrun in Hr. injection Hr as <- <-.
        rewrite Hmap. apply lookup_delete_eq.
    + destruct H as (d1 & Hrun). repeat split.
      * intros (e & d' & He). congruence.
      * discriminate.
      * intros c' pid' Hc' Hp'. congruence.
      * intros r d' Hr. congruence.
  - destruct H as (d1 & Hrun & Hmap & _). repeat split.
    + eauto.
    + discriminate.
    + intros r d' Hr. rewrite Hrun in Hr. injection Hr as <- <-.
      now rewrite Hmap.
Qed.

(** ** [Status] *)

Lemma Status_outcome (service : string) (d : Daemon) :
  ∃ d',
    Status service d =
      Done
        (if String.eqb (find service (world d)) "" then ("", Some "no service found")
         else match mapCommand d !! service with
              | Some {| Process := Some pid |} =>
                  if isProcessRunning pid (world d) then ("running", None)
                  else ("exited", None)
              | _ => ("exited", None)
              end) d' ∧
    mapCommand d' = mapCommand d ∧ logs d' = logs d ∧ world d' = world d.
Proof.
  unfold Status. unfold_m. simpl.
  destruct (String.eqb (find service (world d)) "");
    [eexists; split; [reflexivity | now repeat split] |].
  simpl.
  destruct (mapCommand d !! service) as [[p a dir [pid|] lookup]|]; simpl;
    try (eexists; split; [reflexivity | now repeat split]).
  destruct (isProcessRunning pid (world d)); simpl;
    eexists; (split; [reflexivity | now repeat split]).
Qed.

(** ** [Start] *)

Lemma cmdArgs_of_environ (w w' : World) (fields : list string) :
  environ w = environ w' → cmdArgs_of w fields = cmdArgs_of w' fields.
Proof.
  intros H. induction fields as [|s rest IH]; [reflexivity |].
  cbn [cmdArgs_of]. unfold os_Getenv. now rewrite H, IH.
Qed.

Lemma lookpath_in_executables (w w' : World) (dirs : list string) (file : string) :
  executables w = executables w' → lookpath_in w dirs file = lookpath_in w' dirs file.
Proof.
  intros H. induction dirs as [|dir rest IH]; [reflexivity |].
  cbn [lookpath_in]. now rewrite H, IH.
Qed.

Lemma exec_Command_environ (w w' : World) (name : string) (arg : list string) :
  environ w = environ w' → executables w = executables w' →
  exec_Command w name arg = exec_Command w' name arg.
Proof.
  intros He Hx. unfold exec_Command, exec_LookPath, os_Getenv.
  now rewrite He, (lookpath_in_executables w w' _ _ Hx).
Qed.

(** The command depends on the environment and on what can be executed,
    and on nothing else of the world. *)
Lemma command_of_environ (w w' : World) (val val2 : string) :
  environ w = environ w' → executables w = executables w' →
  command_of w val val2 = command_of w' val val2.
Proof.
  intros He Hx. unfold command_of.
  now rewrite (cmdArgs_of_environ w w' _ He), (exec_Command_environ w w' _ _ He Hx).
Qed.

Lemma command_of_Process (w : World) (val val2 : string) :
  Process (command_of w val val2) = None.
Proof.
  unfold command_of. destruct (negb (String.eqb val2 "")); apply exec_Command_Args.
Qed.

Lemma launches_executables (w w' : World) (c : Cmd) :
  executables w = executables w' → launches w c = launches w' c.
Proof.
  intros H. unfold launches, Cmd_Start. rewrite H.
  destruct (Err_ c); [reflexivity |].
  destruct (String.eqb (Path c) ""); [reflexivity |].
  now destruct (decide (Path c ∈ executables w')).
Qed.

Lemma Cmd_Start_refused (w : World) (c : Cmd) :
  launches w c = false → ∃ e, Cmd_Start c w = (Err e, w).
Proof.
  unfold launches, Cmd_Start. destruct (Err_ c); [eauto |].
  destruct (String.eqb (Path c) ""); [eauto |].
  destruct (decide (Path c ∈ executables w)); [discriminate | eauto].
Qed.

(** A command with a path name that the system cannot execute is not
    launched. *)
Lemma launches_path (w : World) (val val2 : string) :
  strings_Contains (hd "" (strings_Split val " ")) "/" = true →
  hd "" (strings_Split val " ") ≠ "/" →
  hd "" (strings_Split val " ") ∉ executables w →
  launches w (command_of w val val2) = false.
Proof.
  intros Hslash Hne Hno.
  destruct (command_of_Path w val val2 Hslash Hne) as [HP HE].
  unfold launches, Cmd_Start. rewrite HE, HP.
  destruct (String.eqb _ ""); [reflexivity |].
  now rewrite decide_False.
Qed.

(** The paths through [Start], one goal for each: the three early
    errors; then, for a registered process that is alive, the wait that
    never returns and the wait that does, and for no such process no
    wait; and after the wait the two errors on [ExecStart], the three
    ways the launch is refused, and the launch. *)
Ltac launch_paths opts :=
  try match goal with
  | |- context [getOptions opts "Service" "ExecStart"] =>
      destruct (getOptions opts "Service" "ExecStart") as [line|experr] eqn:Hexec; simpl;
      [ destruct (String.eqb_spec line "") as [Hline|Hline]; simpl;
        [ | match goal with
            | |- context [Err_ ?c] =>
                destruct (Err_ c) as [lperr|] eqn:Herr; simpl;
                [ | destruct (String.eqb_spec (Path c) "") as [Hpath|Hpath]; simpl;
                    [ | match goal with
                        | |- context [decide (Path c ∈ ?x)] =>
                            destruct (decide (Path c ∈ x)) as [Hexe|Hexe]; simpl
                        end ] ]
            end ]
      | ]
  end.

Ltac start_paths Deserialize d service :=
  unfold Start, parseSystemdService; unfold_m;
  unfold Process_Signal, Cmd_Wait, Cmd_Start; simpl;
  destruct (String.eqb_spec (find service (world d)) "") as [Hfind|Hfind]; simpl;
  [ | destruct (os_ReadFile (world d) (find service (world d))) as [text|readerr] eqn:Hread;
      simpl;
      [ destruct (Deserialize text) as [parsed|parseerr] eqn:Hparse; simpl;
        [ destruct (mapCommand d !! service) as [[p a dir [child|] lookup]|] eqn:Hentry;
          simpl;
          [ destruct (decide (child ∈ alive (world d))) as [Halive|Halive]; simpl;
            [ rewrite ?(decide_True (P := child ∈ alive (world d))) by exact Halive;
              destruct (decide (child ∈ stubborn (world d))) as [Hdeaf|Hdeaf]; simpl
            | rewrite ?(decide_False (P := child ∈ alive (world d))) by exact Halive;
              simpl ]
          | | ];
          launch_paths parsed
        | ]
      | ] ].

Ltac outcome_goal :=
  match goal with
  | |- _ ∧ _ => split; outcome_goal
  | |- ∃ _, _ => eexists; outcome_goal
  | |- _ ∈ {[ _ ]} ∪ _ => apply elem_of_union_l, elem_of_singleton; reflexivity
  | |- <[ _ := _ ]> _ !! _ = Some _ => apply lookup_insert_eq
  | |- _ ≠ _ => assumption
  | |- _ ∈ _ => assumption
  | |- _ ∉ _ ∖ {[ _ ]} => apply not_elem_of_gone
  | |- _ ∉ _ => assumption
  | |- _ => reflexivity
  end.

Section StartErrors.

Variable Deserialize : string → result (list UnitOption).

(** [Start] never panics and never exits. It leaves files, environment
    and executables alone. When it returns [nil] the unit file resolved,
    the child runs under the PID the system handed out, the registry
    holds its command and one watcher was added, with the attempts
    [Start] was given; when it returns an error nothing was launched and
    no watcher was added. It does not return when it finds a process
    registered that is alive and ignores the [SIGTERM] it sends: then it
    waits, with the lock held and nothing else changed. *)
Lemma Start_outcome (service : string) (try : Z) (d : Daemon) :
  match Start Deserialize service try d with
  | Done r d' =>
      fs (world d') = fs (world d) ∧
      lock d' = false ∧
      match r with
      | None =>
          find service (world d) ≠ "" ∧
          ∃ command opts,
            mapCommand d' !! service =
              Some (with_Process (next_pid (world d)) command) ∧
            next_pid (world d) ∈ alive (world d') ∧
            next_pid (world d') = next_pid (world d) + 1 ∧
            goroutines d' =
              goroutines d ++ [Watching service try (next_pid (world d)) opts]
      | Some _ =>
          goroutines d' = goroutines d ∧ next_pid (world d') = next_pid (world d)
      end
  | Blocked d' =>
      lock d' = true ∧ mapCommand d' = mapCommand d ∧
      goroutines d' = goroutines d ∧
      ∃ command pid,
        mapCommand d !! service = Some command ∧ Process command = Some pid ∧
        pid ∈ alive (world d) ∧ pid ∈ stubborn (world d) ∧
        alive (world d') = alive (world d) ∧
        delivered (world d') = (pid, SIGTERM) :: delivered (world d)
  | Panic _ | Exit _ _ => False
  end.
Proof. start_paths Deserialize d service; outcome_goal. Qed.

(** [Start] returns unless the process registered for the service is
    alive and ignores [SIGTERM]. *)
Lemma Start_returns (service : string) (try : Z) (d : Daemon) :
  (∀ command pid,
      mapCommand d !! service = Some command → Process command = Some pid →
      pid ∈ alive (world d) → pid ∉ stubborn (world d)) →
  ∃ r d', Start Deserialize service try d = Done r d'.
Proof.
  intros Hquick. pose proof (Start_outcome service try d) as H.
  destruct (Start Deserialize service try d) as [r d'|d'|d'|code d'];
    [eauto | | contradiction..].
  destruct H as (_ & _ & _ & command & pid & Hc & Hp & Ha & Hs & _).
  now destruct (Hquick command pid).
Qed.

(** The unit file parses, and the process registered for the service is
    alive and ignores [SIGTERM]: [Start] sends the signal and waits for
    the process without a time limit, and never returns. It holds the
    lock, and the process is alive as before. *)
Lemma Start_blocks (service : string) (try : Z) (d : Daemon)
    (file : string) (opts : list UnitOption) (command : Cmd) (pid : Z) :
  find service (world d) ≠ "" →
  os_ReadFile (world d) (find service (world d)) = Ok file →
  Deserialize file = Ok opts →
  mapCommand d !! service = Some command →
  Process command = Some pid →
  pid ∈ alive (world d) →
  pid ∈ stubborn (world d) →
  ∃ d',
    Start Deserialize service try d = Blocked d' ∧
    lock d' = true ∧ mapCommand d' = mapCommand d ∧
    alive (world d') = alive (world d) ∧
    delivered (world d') = (pid, SIGTERM) :: delivered (world d).
Proof.
  intros Hne Hfile Hopts Hc Hp Ha Hs.
  unfold Start, parseSystemdService. unfold_m. simpl.
  destruct (String.eqb_spec (find service (world d)) ""); [contradiction |].
  simpl. rewrite Hfile. simpl. rewrite Hopts. simpl. rewrite Hc. simpl.
  rewrite Hp. simpl. unfold Process_Signal, Cmd_Wait.
  rewrite (decide_True (P := pid ∈ alive (world d))) by assumption. simpl.
  rewrite (decide_True (P := pid ∈ alive (world d))) by assumption.
  rewrite (decide_True (P := pid ∈ stubborn (world d))) by assumption. simpl.
  eexists. split; [reflexivity |]. now repeat split.
Qed.

(** A unit file that parses but has no usable [ExecStart]: the process
    registered for the service, when it reacts to [SIGTERM], is
    terminated first, then the error is returned, and the registry keeps
    the terminated process. *)
Lemma Start_without_ExecStart (service : string) (try : Z) (d : Daemon)
    (file : string) (opts : list UnitOption) (command : Cmd) (pid : Z) :
  find service (world d) ≠ "" →
  os_ReadFile (world d) (find service (world d)) = Ok file →
  Deserialize file = Ok opts →
  match getOptions opts "Service" "ExecStart" with
  | Ok val => val = ""
  | Err _ => True
  end →
  mapCommand d !! service = Some command →
  Process command = Some pid →
  pid ∈ alive (world d) →
  pid ∉ stubborn (world d) →
  ∃ err d',
    Start Deserialize service try d = Done (Some err) d' ∧
    mapCommand d' = mapCommand d ∧
    (pid ∉ alive (world d')) ∧
    delivered (world d') = (pid, SIGTERM) :: delivered (world d).
Proof.
  intros Hne Hfile Hopts Hno Hc Hp Ha Hs.
  unfold Start, parseSystemdService. unfold_m. simpl.
  destruct (String.eqb_spec (find service (world d)) ""); [contradiction |].
  simpl. rewrite Hfile. simpl. rewrite Hopts. simpl. rewrite Hc. simpl.
  rewrite Hp. simpl. unfold Process_Signal, Cmd_Wait.
  rewrite (decide_True (P := pid ∈ alive (world d))) by assumption. simpl.
  rewrite (decide_True (P := pid ∈ alive (world d))) by assumption.
  rewrite (decide_False (P := pid ∈ stubborn (world d))) by assumption. simpl.
  destruct (getOptions opts "Service" "ExecStart") as [val|e]; simpl.
  - subst val. simpl. eexists _, _. split; [reflexivity |]. simpl.
    repeat split. apply not_elem_of_gone.
  - eexists _, _. split; [reflexivity |]. simpl.
    repeat split. apply not_elem_of_gone.
Qed.

(** The child cannot be launched: when [Start] gets as far as the
    launch, the error is returned after the new command has been
    stored, so the registry maps the service to a command that has no
    process. *)
Lemma Start_launch_failure (service : string) (try : Z) (d : Daemon)
    (file : string) (opts : list UnitOption) (val : string) :
  find service (world d) ≠ "" →
  os_ReadFile (world d) (find service (world d)) = Ok file →
  Deserialize file = Ok opts →
  getOptions opts "Service" "ExecStart" = Ok val →
  val ≠ "" →
  launches (world d)
    (command_of (world d) val
       (value_or_empty (getOptions opts "Service" "WorkingDirectory"))) = false →
  (∀ command pid,
      mapCommand d !! service = Some command → Process command = Some pid →
      pid ∈ alive (world d) → pid ∉ stubborn (world d)) →
  ∃ err d',
    Start Deserialize service try d = Done (Some err) d' ∧
    mapCommand d' !! service =
      Some (command_of (world d) val
              (value_or_empty (getOptions opts "Service" "WorkingDirectory"))) ∧
    Process (command_of (world d) val
               (value_or_empty (getOptions opts "Service" "WorkingDirectory"))) = None.
Proof.
  intros Hne Hfile Hopts Hval Hnonempty Hrefused Hquick.
  set (val2 := value_or_empty (getOptions opts "Service" "WorkingDirectory")) in *.
  assert (Hsame : ∀ w, environ w = environ (world d) →
                       executables w = executables (world d) →
                       command_of w val val2 = command_of (world d) val val2 ∧
                       ∃ e, Cmd_Start (command_of w val val2) w = (Err e, w)).
  { intros w He Hx. split; [now apply command_of_environ |].
    rewrite (command_of_environ w (world d) val val2 He Hx).
    rewrite (launches_executables (world d) w _ (eq_sym Hx)) in Hrefused.
    now apply Cmd_Start_refused. }
  unfold Start, parseSystemdService. unfold_m. simpl.
  destruct (String.eqb_spec (find service (world d)) ""); [contradiction |].
  simpl. rewrite Hfile. simpl. rewrite Hopts. simpl. rewrite Hval.
  destruct (String.eqb_spec val ""); [contradiction |].
  fold val2. unfold Process_Signal, Cmd_Wait.
  destruct (mapCommand d !! service) as [[p a dir [pid|] lookup]|] eqn:Hc; simpl.
  - destruct (decide (pid ∈ alive (world d))) as [Ha|Ha]; simpl.
    + rewrite (decide_True (P := pid ∈ alive (world d))) by assumption.
      rewrite (decide_False (P := pid ∈ stubborn (world d)))
        by exact (Hquick _ pid eq_refl eq_refl Ha).
      simpl.
      match goal with
      | |- context [Cmd_Start (command_of ?w val val2) ?w] =>
          destruct (Hsame w eq_refl eq_refl) as (Hcmd & e & He)
      end.
      rewrite He. simpl. eexists _, _. split; [reflexivity |]. simpl.
      split; [| apply command_of_Process]. now rewrite lookup_insert_eq, Hcmd.
    + rewrite (decide_False (P := pid ∈ alive (world d))) by assumption. simpl.
      destruct (Hsame (world d) eq_refl eq_refl) as (_ & e & He).
      rewrite He. simpl. eexists _, _. split; [reflexivity |]. simpl.
      split; [| apply command_of_Process]. now rewrite lookup_insert_eq.
  - destruct (Hsame (world d) eq_refl eq_refl) as (_ & e & He).
    rewrite He. simpl. eexists _, _. split; [reflexivity |]. simpl.
    split; [| apply command_of_Process]. now rewrite lookup_insert_eq.
  - destruct (Hsame (world d) eq_refl eq_refl) as (_ & e & He).
    rewrite He. simpl. eexists _, _. split; [reflexivity |]. simpl.
    split; [| apply command_of_Process]. now rewrite lookup_insert_eq.
Qed.

(** C10 (the code at its failing input). [broken] runs as PID 7, a
    process that ignores [SIGTERM], and its unit file has lost its
    [ExecStart]. [Start] sends the signal and then waits for the process
    in [process.Wait()] (line 364), which has no time limit: it never
    returns, so no error is returned and the process is not terminated,
    and the lock stays held, so that no later request is served. [Stop]
    on the same daemon gives the child five seconds, kills it and
    returns. *)
Theorem C10_start_waits_forever :
  (∃ d',
     Start simple_Deserialize "broken" 5 deaf_running = Blocked d' ∧
     lock d' = true ∧
     mapCommand d' = mapCommand deaf_running ∧
     alive (world d') = {[ 7 ]} ∧
     delivered (world d') = [(7, SIGTERM)]) ∧
  (∃ d',
     Stop "broken" deaf_running = Done None d' ∧
     lock d' = false ∧
     mapCommand d' !! "broken" = None ∧
     alive (world d') = ∅ ∧
     delivered (world d') = [(7, SIGKILL); (7, SIGTERM)]).
Proof.
  split; eexists; (split; [vm_compute; reflexivity |]);
    repeat split; vm_compute; reflexivity.
Qed.

End StartErrors.

(** ** Effects of daemon code on the books *)

Lemma effect_refl (name : string) (d : Daemon) : effect name 0 d d.
Proof. split; [auto | lia | auto]. Qed.

Lemma effect_weaken (name : string) (k k' : nat) (d d' : Daemon) :
  (k ≤ k')%nat → effect name k d d' → effect name k' d d'.
Proof. intros Hk [Hl Hc Hr]. split; [auto | lia | auto]. Qed.

Lemma started_mono (name : string) (l l' : list LogLine) :
  (∀ x, x ∈ l → x ∈ l') → started name l → started name l'.
Proof. intros H [try Ht]. exists try. auto. Qed.

Lemma effect_trans (name : string) (k1 k2 : nat) (d1 d2 d3 : Daemon) :
  effect name k1 d1 d2 → effect name k2 d2 d3 → effect name (k1 + k2) d1 d3.
Proof.
  intros [Hl1 Hc1 Hr1] [Hl2 Hc2 Hr2]. split; [auto | lia |].
  intros H3. destruct (Hr2 H3) as [H2|H2]; [| now right].
  destruct (Hr1 H2) as [H1|H1]; [now left | right].
  now apply (started_mono name (logs d2)).
Qed.

Lemma effects_bind {A B : Type} (name : string) (k1 k2 : nat) (m : M A) (f : A → M B) :
  effects name k1 m → (∀ a, effects name k2 (f a)) → effects name (k1 + k2) (m ≫= f).
Proof.
  intros Hm Hf d. specialize (Hm d). unfold mbind, M_bind.
  destruct (m d) as [a d'|d'|d'|code d']; simpl in *.
  - apply (effect_trans name k1 k2 d d'); [assumption | apply Hf].
  - apply (effect_weaken name k1); [lia | assumption].
  - apply (effect_weaken name k1); [lia | assumption].
  - apply (effect_weaken name k1); [lia | assumption].
Qed.

Lemma quiet_bind {A B : Type} (m : M A) (f : A → M B) :
  quiet m → (∀ a, quiet (f a)) → quiet (m ≫= f).
Proof. intros Hm Hf name. apply (effects_bind name 0 0); [apply Hm | intros a; apply Hf]. Qed.

Lemma quiet_ret {A : Type} (a : A) : quiet (mret a : M A).
Proof. intros name d. apply effect_refl. Qed.

Lemma quiet_gets {A : Type} (f : Daemon → A) : quiet (gets f).
Proof. intros name d. apply effect_refl. Qed.

Lemma quiet_ask {A : Type} (query : World → A) : quiet (ask query).
Proof. apply quiet_gets. Qed.

Lemma quiet_panic {A : Type} : quiet (panic : M A).
Proof. intros name d. apply effect_refl. Qed.

Lemma quiet_Exit {A : Type} (code : Z) : quiet (os_Exit code : M A).
Proof. intros name d. apply effect_refl. Qed.

Lemma quiet_sys {A : Type} (call : World → A * World) : quiet (sys call).
Proof.
  intros name d. unfold sys. destruct (call (world d)) as [a w]. simpl.
  split; simpl; [auto | lia | auto].
Qed.

Lemma quiet_blocking (call : World → option World) : quiet (blocking call).
Proof.
  intros name d. unfold blocking. destruct (call (world d)) as [w|]; simpl.
  - split; simpl; [auto | lia | auto].
  - apply effect_refl.
Qed.

Lemma quiet_Lock : quiet lock_Lock.
Proof. intros name d. split; simpl; [auto | lia | auto]. Qed.

Lemma quiet_Unlock : quiet lock_Unlock.
Proof. intros name d. split; simpl; [auto | lia | auto]. Qed.

Lemma quiet_record (k : AccessKind) (key : string) : quiet (record k key).
Proof. intros name d. split; simpl; [auto | lia | auto]. Qed.

Lemma quiet_map_get (key : string) : quiet (map_get key).
Proof.
  unfold map_get. apply quiet_bind; [apply quiet_record | intros _; apply quiet_gets].
Qed.

Lemma quiet_map_delete (key : string) : quiet (map_delete key).
Proof.
  unfold map_delete. apply quiet_bind; [apply quiet_record | intros _].
  intros name d. split; simpl; [auto | lia |].
  intros [c Hc]. left. destruct (decide (key = name)) as [->|Hne].
  - now rewrite lookup_delete_eq in Hc.
  - rewrite lookup_delete_ne in Hc by assumption. eauto.
Qed.

Lemma quiet_log (l : LogLine) : plain l → quiet (log l).
Proof.
  intros Hl name d. split; simpl.
  - intros x Hx. now apply list_elem_of_further.
  - destruct l; simpl; try lia. contradiction.
  - auto.
Qed.

Lemma quiet_locked {A : Type} (m : M A) : quiet m → quiet (locked m).
Proof.
  intros Hm. unfold locked.
  apply quiet_bind; [apply quiet_Lock | intros _].
  apply quiet_bind; [assumption | intros r].
  apply quiet_bind; [apply quiet_Unlock | intros _; apply quiet_ret].
Qed.

Ltac quiet_step :=
  first
    [ apply quiet_locked
    | apply quiet_Lock
    | apply quiet_Unlock
    | apply quiet_map_get
    | apply quiet_map_delete
    | apply quiet_bind; [| intros ?]
    | apply quiet_ret
    | apply quiet_ask
    | apply quiet_gets
    | apply quiet_sys
    | apply quiet_blocking
    | apply quiet_panic
    | apply quiet_Exit
    | apply quiet_log; exact I
    | match goal with
      | |- quiet (match ?x with _ => _ end) => destruct x
      end ].

Ltac quiet_tac := repeat quiet_step.

Lemma quiet_Enable (service : string) : quiet (Enable service).
Proof. unfold Enable. quiet_tac. Qed.

Lemma quiet_Disable (service : string) : quiet (Disable service).
Proof. unfold Disable. quiet_tac. Qed.

Lemma quiet_Stop (service : string) : quiet (Stop service).
Proof. unfold Stop. quiet_tac. Qed.

Lemma quiet_Status (service : string) : quiet (Status service).
Proof. unfold Status. quiet_tac. Qed.

Lemma quiet_respond (err : option string) : quiet (respond err).
Proof. unfold respond. quiet_tac. Qed.

Lemma quiet_watcher_exited (service : string) (opts : list UnitOption) (exitCode : Z) :
  quiet (watcher_exited service opts exitCode).
Proof. unfold watcher_exited. cbv zeta. quiet_tac. Qed.

Ltac effect_goal :=
  match goal with
  | |- _ ∈ _ => rewrite ?elem_of_cons; auto 10
  | |- ∀ l, l ∈ _ → _ => intros; rewrite ?elem_of_cons; auto 10
  | |- _ ∨ _ => first [left; reflexivity | right; eauto]
  | |- ∀ name, name ≠ _ → _ =>
      intros; rewrite ?lookup_insert_ne by congruence; reflexivity
  | |- _ => intros; reflexivity
  end.

Ltac effect_done :=
  eexists; (split; [reflexivity |]); simpl;
  repeat match goal with |- _ ∧ _ => split end; effect_goal.

(** ** The watcher goroutine *)

(** The decision of the watcher, and what it leaves behind: besides log
    lines, only the record of its read of the registry, which it makes
    when the policy is ["always"], with the lock as the goroutine found
    it. *)
Lemma watcher_exited_outcome (service : string) (opts : list UnitOption)
    (exitCode : Z) (d : Daemon) :
  ∃ d',
    watcher_exited service opts exitCode d =
      Done
        (negb (String.eqb (value_or_empty (getOptions opts "Service" "Restart")) "always"
               && is_nil (mapCommand d !! service))
         && negb (String.eqb (value_or_empty (getOptions opts "Service" "Restart")) "on-failure"
                  && (exitCode =? 0))) d' ∧
    mapCommand d' = mapCommand d ∧ goroutines d' = goroutines d ∧
    world d' = world d ∧ lock d' = lock d ∧
    (∀ name, restarts name (logs d') = restarts name (logs d)) ∧
    accesses d' =
      (if String.eqb (value_or_empty (getOptions opts "Service" "Restart")) "always"
       then [{| kind := MapRead; key := service; under_lock := lock d |}]
       else []) ++ accesses d.
Proof.
  unfold watcher_exited. cbv zeta. unfold_m. simpl.
  destruct (String.eqb (value_or_empty (getOptions opts "Service" "Restart")) "always");
    simpl.
  - destruct (mapCommand d !! service); simpl.
    + destruct (String.eqb _ "on-failure" && (exitCode =? 0)); simpl;
        eexists; (split; [reflexivity | now repeat split]).
    + eexists; (split; [reflexivity | now repeat split]).
  - destruct (String.eqb _ "on-failure" && (exitCode =? 0)); simpl;
      eexists; (split; [reflexivity | now repeat split]).
Qed.

Lemma budget_app (name : string) (gs gs' : list Goroutine) :
  budget name (gs ++ gs') = (budget name gs + budget name gs')%nat.
Proof. induction gs as [|g gs IH]; simpl; [reflexivity | rewrite IH; lia]. Qed.

Lemma budget_delete (name : string) (gs : list Goroutine) (i : nat) (g : Goroutine) :
  gs !! i = Some g →
  (budget name (delete i gs) + attempts_of name g)%nat = budget name gs.
Proof.
  revert i. induction gs as [|g' gs IH]; intros [|i] H; try discriminate.
  - injection H as ->. simpl. lia.
  - simpl in *. rewrite <- (IH i H). lia.
Qed.

Section Books.

Variable Deserialize : string → result (list UnitOption).

(** What [Start] leaves behind whatever path it takes, also when it
    does not return. *)
Lemma Start_effect (service : string) (try : Z) (d : Daemon) :
  ∃ d', state_of (Start Deserialize service try d) = d' ∧
    (∀ name, restarts name (logs d') = restarts name (logs d)) ∧
    (∀ l, l ∈ logs d → l ∈ logs d') ∧
    LStarting service try ∈ logs d' ∧
    (goroutines d' = goroutines d ∨
     ∃ pid opts, goroutines d' = goroutines d ++ [Watching service try pid opts]) ∧
    (∀ name, name ≠ service → mapCommand d' !! name = mapCommand d !! name).
Proof. start_paths Deserialize d service; effect_done. Qed.

Lemma effects_Start (name service : string) (try : Z) :
  effects name (attempts_of name (Sleeping service try))
    (Start Deserialize service try).
Proof.
  intros d.
  destruct (Start_effect service try d) as (d' & Hrun & Hre & Hl & Hs & Hg & Hm).
  rewrite Hrun. split.
  - assumption.
  - rewrite Hre. destruct Hg as [->|(pid & opts & ->)]; [lia |].
    rewrite budget_app. simpl. lia.
  - intros Hsome. destruct (decide (name = service)) as [->|Hne].
    + right. now exists try.
    + left. now rewrite <- (Hm name Hne).
Qed.

Lemma effects_quiet {A : Type} (name : string) (k : nat) (m : M A) :
  quiet m → effects name k m.
Proof. intros H d. apply (effect_weaken name 0); [lia | apply H]. Qed.

Lemma effects_watcher_retry (name service : string) (try : Z) :
  effects name (attempts_of name (Sleeping service try))
    (watcher_retry Deserialize service try).
Proof.
  unfold watcher_retry. destruct (Z.gtb_spec try 0) as [Hpos|Hle].
  - intros d.
    apply (effect_weaken name
             ((if String.eqb service name then 1 else 0)
              + (attempts_of name (Sleeping service (try - 1)) + 0))).
    { simpl. destruct (String.eqb service name); lia. }
    revert d. apply effects_bind.
    + intros d. split; simpl; [| destruct (String.eqb service name); lia | auto].
      intros x Hx. now apply list_elem_of_further.
    + intros _. apply effects_bind; [apply effects_Start |].
      intros [e|]; apply effects_quiet; quiet_tac.
  - apply effects_quiet. quiet_tac.
Qed.

Lemma effects_dispatch (name op service : string) :
  effects name (if String.eqb op "start" && String.eqb service name then 5 else 0)
    (dispatch Deserialize op service).
Proof.
  unfold dispatch.
  destruct (String.eqb_spec op "enable") as [->|_];
    [apply effects_quiet; quiet_tac; apply quiet_Enable || apply quiet_respond |].
  destruct (String.eqb_spec op "disable") as [->|_];
    [apply effects_quiet; quiet_tac; apply quiet_Disable || apply quiet_respond |].
  destruct (String.eqb_spec op "start") as [->|_].
  - intros d.
    apply (effect_weaken name (0 + (attempts_of name (Sleeping service 5) + 0))).
    { simpl. destruct (String.eqb service name); simpl; lia. }
    revert d. apply effects_bind; [apply effects_quiet; quiet_tac |].
    intros _. apply effects_bind; [apply effects_Start |].
    intros err. apply effects_quiet, quiet_respond.
  - simpl.
    destruct (String.eqb_spec op "stop") as [->|_];
      [apply effects_quiet; quiet_tac; apply quiet_Stop || apply quiet_respond |].
    destruct (String.eqb_spec op "status") as [->|_];
      [apply effects_quiet; quiet_tac;
       apply quiet_Status || apply quiet_respond |].
    destruct (String.eqb_spec op "reboot") as [->|_];
      apply effects_quiet; quiet_tac; apply quiet_respond.
Qed.

End Books.

Section Traces.

Variable Deserialize : string → result (list UnitOption).

Lemma effects_handleConnection (name : string) (read : option string) :
  effects name (granted name (Connection read)) (handleConnection Deserialize read).
Proof.
  unfold handleConnection, granted. destruct read as [msg|]; [| apply quiet_ret].
  destruct (request_of msg) as [[op service]|]; [| apply quiet_ret].
  apply effects_dispatch.
Qed.

Lemma effects_Domain_walk (name entry : string) :
  effects name (granted name (Autostart entry)) (Domain_walk Deserialize entry).
Proof.
  unfold Domain_walk, granted.
  destruct (strings_HasSuffix entry ".service"); simpl; [| apply quiet_ret].
  destruct (String.eqb entry "e2scrub_reap.service"); simpl; [apply quiet_ret |].
  intros d.
  apply (effect_weaken name
           (attempts_of name (Sleeping (strings_TrimSuffix entry ".service") 5) + 0)).
  { simpl. destruct (String.eqb _ name); simpl; lia. }
  revert d. apply effects_bind; [apply effects_Start |].
  intros [e|]; apply effects_quiet; quiet_tac.
Qed.

(** A watched child exits: its goroutine leaves the list and, unless the
    policy suppresses the restart, comes back asleep with the same
    attempts. *)
Lemma ChildExit_outcome (i : nat) (exitCode : Z) (d : Daemon)
    (service : string) (try pid : Z) (opts : list UnitOption) :
  goroutines d !! i = Some (Watching service try pid opts) →
  ∃ d',
    step Deserialize (ChildExit i exitCode) d = Done tt d' ∧
    mapCommand d' = mapCommand d ∧
    (∀ name, restarts name (logs d') = restarts name (logs d)) ∧
    (∀ l, l ∈ logs d → l ∈ logs d') ∧
    goroutines d' =
      delete i (goroutines d) ++
      (if negb (String.eqb (value_or_empty (getOptions opts "Service" "Restart")) "always"
                && is_nil (mapCommand d !! service))
          && negb (String.eqb (value_or_empty (getOptions opts "Service" "Restart")) "on-failure"
                   && (exitCode =? 0))
       then [Sleeping service try] else []).
Proof.
  intros Hi. unfold step. unfold_m. simpl. rewrite Hi.
  unfold exits. simpl.
  match goal with
  | |- context [watcher_exited service opts exitCode ?d1] =>
      destruct (watcher_exited_outcome service opts exitCode d1)
        as (d2 & Hrun & Hm & Hg & Hw & Hlock & Hre & Hacc);
      pose proof (quiet_watcher_exited service opts exitCode service d1) as Hq
  end.
  rewrite Hrun in Hq |- *. destruct Hq as [Hlogs _ _]. simpl in *.
  match goal with
  | |- context [if ?b then _ else _] => destruct b
  end; simpl; eexists; (split; [reflexivity |]); simpl;
    rewrite Hg; repeat split; try assumption; now rewrite app_nil_r.
Qed.

Lemma effects_step (name : string) (ev : Event) :
  effects name (granted name ev) (step Deserialize ev).
Proof.
  destruct ev as [read|entry|i exitCode|i|w].
  - unfold step. intros d.
    apply (effect_weaken name (granted name (Connection read) + 0)); [lia |].
    revert d. apply effects_bind; [apply effects_handleConnection |].
    intros _. apply quiet_ret.
  - apply effects_Domain_walk.
  - intros d. simpl granted.
    destruct (goroutines d !! i) as [[service try pid opts|service try]|] eqn:Hi.
    + destruct (ChildExit_outcome i exitCode d service try pid opts Hi)
        as (d' & Hrun & Hm & Hre & Hl & Hg).
      rewrite Hrun. simpl. split; [assumption | | rewrite Hm; auto].
      rewrite Hre, Hg, budget_app.
      rewrite <- (budget_delete name (goroutines d) i _ Hi).
      destruct (_ && _); simpl; lia.
    + unfold step. unfold_m. simpl. rewrite Hi. apply effect_refl.
    + unfold step. unfold_m. simpl. rewrite Hi. apply effect_refl.
  - intros d. simpl granted.
    destruct (goroutines d !! i) as [[service try pid opts|service try]|] eqn:Hi.
    + unfold step. unfold_m. simpl. rewrite Hi. apply effect_refl.
    + unfold step. unfold_m. simpl. rewrite Hi.
      match goal with
      | |- context [watcher_retry Deserialize service try ?d1] =>
          pose proof (effects_watcher_retry Deserialize name service try d1) as Hq
      end.
      destruct Hq as [Hl Hc Hr]. simpl in Hl, Hc, Hr.
      pose proof (budget_delete name (goroutines d) i _ Hi) as Hb. simpl in Hb.
      split; [assumption | lia | assumption].
    + unfold step. unfold_m. simpl. rewrite Hi. apply effect_refl.
  - intros d. split; simpl; [auto | lia | auto].
Qed.

Lemma effects_run (name : string) (evs : list Event) :
  effects name (granted_all name evs) (run Deserialize evs).
Proof.
  induction evs as [|ev evs IH]; simpl; [apply quiet_ret |].
  apply effects_bind; [apply effects_step | intros _; apply IH].
Qed.

Lemma granted_all_zero (name : string) (evs : list Event) :
  Forall (λ ev, granted name ev = 0%nat) evs → granted_all name evs = 0%nat.
Proof.
  induction 1 as [|ev evs Hev _ IH]; simpl; [reflexivity | lia].
Qed.

End Traces.

(** ** The claims on the supervision engine *)

Section Engine.

Variable Deserialize : string → result (list UnitOption).

(** C1. When the child watched by a goroutine exits, no restart is
    attempted, and the goroutine is over, if the policy is ["on-failure"]
    and the exit code is 0, or if the policy is ["always"] and the
    registry holds nothing for the name; in every other case the
    goroutine goes on to its sleep with its attempts, and on waking runs
    the attempt-budget restart [watcher_retry]. *)
Theorem C1_restart_policy (i : nat) (exitCode : Z) (d : Daemon)
    (service : string) (try pid : Z) (opts : list UnitOption) :
  goroutines d !! i = Some (Watching service try pid opts) →
  ∃ d',
    step Deserialize (ChildExit i exitCode) d = Done tt d' ∧
    (∀ name, restarts name (logs d') = restarts name (logs d)) ∧
    (value_or_empty (getOptions opts "Service" "Restart") = "on-failure" →
     exitCode = 0 → goroutines d' = delete i (goroutines d)) ∧
    (value_or_empty (getOptions opts "Service" "Restart") = "always" →
     mapCommand d !! service = None → goroutines d' = delete i (goroutines d)) ∧
    (¬ (value_or_empty (getOptions opts "Service" "Restart") = "on-failure"
        ∧ exitCode = 0) →
     ¬ (value_or_empty (getOptions opts "Service" "Restart") = "always"
        ∧ mapCommand d !! service = None) →
     goroutines d' = delete i (goroutines d) ++ [Sleeping service try] ∧
     ∀ j d0, goroutines d0 !! j = Some (Sleeping service try) →
             step Deserialize (Wakeup j) d0 =
               watcher_retry Deserialize service try
                 (with_goroutines (delete j (goroutines d0)) d0)).
Proof.
  intros Hi.
  destruct (ChildExit_outcome Deserialize i exitCode d service try pid opts Hi)
    as (d' & Hrun & _ & Hre & _ & Hg).
  exists d'. split; [assumption |]. split; [assumption |].
  rewrite Hg. clear Hg Hrun Hre.
  destruct (String.eqb_spec (value_or_empty (getOptions opts "Service" "Restart")) "always")
    as [Ha|Ha];
  destruct (String.eqb_spec (value_or_empty (getOptions opts "Service" "Restart")) "on-failure")
    as [Hf|Hf];
  destruct (Z.eqb_spec exitCode 0) as [Hz|Hz];
  destruct (mapCommand d !! service) as [c|] eqn:Hc; simpl;
  repeat split; intros;
    try congruence; try tauto; try apply app_nil_r;
    try (unfold step; unfold_m; simpl;
         match goal with H : _ !! _ = Some (Sleeping _ _) |- _ => now rewrite H end).
Qed.

(** C2. A retry with no attempts left does nothing; a retry with [t > 0]
    attempts is logged and calls [Start] with [t - 1], and the watcher it
    may leave carries [t - 1], whether that [Start] returns or waits for
    good on the process it replaces; so after [Start name n], whatever
    the children do and as long as nothing starts the service from
    outside, the restarts of [name] grow by at most [n] beyond the
    attempts its goroutines carried before. *)
Theorem C2_restart_budget (name : string) (n : Z) (d : Daemon) (evs : list Event) :
  0 ≤ n →
  Forall (λ ev, granted name ev = 0%nat) evs →
  (∀ t d0, t ≤ 0 → watcher_retry Deserialize name t d0 = Done tt d0) ∧
  (∀ t d0, 0 < t →
     ∃ d1, (watcher_retry Deserialize name t d0 = Done tt d1 ∨
            watcher_retry Deserialize name t d0 = Blocked d1) ∧
           restarts name (logs d1) = S (restarts name (logs d0)) ∧
           LStarting name (t - 1) ∈ logs d1 ∧
           (goroutines d1 = goroutines d0 ∨
            ∃ pid opts,
              goroutines d1 = goroutines d0 ++ [Watching name (t - 1) pid opts])) ∧
  (∃ d1,
     ((∃ r, Start Deserialize name n d = Done r d1) ∨
      Start Deserialize name n d = Blocked d1) ∧
     Z.of_nat (restarts name (logs (state_of (run Deserialize evs d1))))
     ≤ Z.of_nat (restarts name (logs d) + budget name (goroutines d)) + n).
Proof.
  intros Hn Hevs. split; [| split].
  - intros t d0 Ht. unfold watcher_retry.
    destruct (Z.gtb_spec t 0); [lia | reflexivity].
  - intros t d0 Ht. unfold watcher_retry.
    destruct (Z.gtb_spec t 0); [| lia]. unfold_m. simpl.
    match goal with
    | |- context [Start Deserialize name (t - 1) ?d1] =>
        pose proof (Start_outcome Deserialize name (t - 1) d1) as Hkind;
        destruct (Start_effect Deserialize name (t - 1) d1)
          as (d2 & Hrun & Hre & Hl & Hs & Hg & _)
    end.
    specialize (Hre name). simpl in Hre, Hl, Hs, Hg.
    rewrite String.eqb_refl in Hre.
    destruct (Start Deserialize name (t - 1) _) as [[e|] d'|d'|d'|code d'];
      try contradiction; simpl in Hrun; subst d2; simpl;
      eexists; (split; [first [left; reflexivity | right; reflexivity] |]); simpl;
      rewrite ?Hre; repeat split; auto using list_elem_of_further.
  - pose proof (Start_outcome Deserialize name n d) as Hkind.
    pose proof (effects_Start Deserialize name name n d) as [_ H1 _].
    exists (state_of (Start Deserialize name n d)). split.
    + destruct (Start Deserialize name n d) as [r d'|d'|d'|code d'];
        [left; eauto | now right | contradiction..].
    + pose proof (effects_run Deserialize name evs
                    (state_of (Start Deserialize name n d))) as [_ H2 _].
      simpl in H1. rewrite String.eqb_refl in H1.
      rewrite (granted_all_zero name evs Hevs) in H2. lia.
Qed.

(** C4. [Status] returns an error exactly when the unit file is in
    neither service directory; otherwise it answers ["running"] exactly
    when the registry holds a command for the name whose process answers
    the liveness probe, and ["exited"] in every other case. In a daemon
    that never entered [Start] for the name, whatever else happened
    since boot, the answer is never ["running"]. *)
Theorem C4_status (service : string) (d : Daemon) :
  (∃ res err d',
     Status service d = Done (res, err) d' ∧
     (is_Some err ↔
        os_Stat (world d) (unit_path usrPath service) = false ∧
        os_Stat (world d) (unit_path sysPath service) = false) ∧
     (err = None →
        (res = "running" ∨ res = "exited") ∧
        (res = "running" ↔
           ∃ command pid,
             mapCommand d !! service = Some command ∧
             Process command = Some pid ∧
             isProcessRunning pid (world d) = true))) ∧
  (∀ w evs res err d',
     ¬ started service (logs (state_of (run Deserialize evs (boot w)))) →
     Status service (state_of (run Deserialize evs (boot w))) = Done (res, err) d' →
     res ≠ "running").
Proof.
  split.
  - destruct (Status_outcome service d) as (d' & Hrun & _).
    rewrite Hrun. clear Hrun.
    destruct (String.eqb_spec (find service (world d)) "") as [Hf|Hf].
    + eexists _, _, d'. split; [reflexivity |]. split; [| discriminate].
      split; [intros _; now apply find_unresolved | eauto].
    + assert (Herr : is_Some (@None string) ↔
                os_Stat (world d) (unit_path usrPath service) = false ∧
                os_Stat (world d) (unit_path sysPath service) = false).
      { split; [intros [e He]; discriminate |].
        intros H. now apply find_unresolved in H. }
      destruct (mapCommand d !! service) as [[p a dir [pid|] lookup]|] eqn:Hc.
      * destruct (isProcessRunning pid (world d)) eqn:Hp;
          eexists _, _, d'; (split; [reflexivity |]); (split; [exact Herr |]);
          intros _; (split; [auto |]); split.
        -- intros _. eexists _, pid. repeat split; eauto.
        -- reflexivity.
        -- discriminate.
        -- intros (c & pid' & Hc' & Hp' & Hr). injection Hc' as <-.
           simpl in Hp'. congruence.
      * eexists _, _, d'. split; [reflexivity |]. split; [exact Herr |].
        intros _. split; [auto |]. split; [discriminate |].
        intros (c & pid' & Hc' & Hp' & _). injection Hc' as <-. discriminate.
      * eexists _, _, d'. split; [reflexivity |]. split; [exact Herr |].
        intros _. split; [auto |]. split; [discriminate |].
        intros (c & pid' & Hc' & _). discriminate.
  - intros w evs res err d' Hnever Hrun.
    pose proof (effects_run Deserialize service evs (boot w)) as [_ _ Hreg].
    set (d0 := state_of (run Deserialize evs (boot w))) in *.
    assert (Hnone : mapCommand d0 !! service = None).
    { destruct (mapCommand d0 !! service) as [c|] eqn:Hc; [| reflexivity].
      destruct Hreg as [[c' Hc']|Hs]; [eauto | | contradiction].
      simpl in Hc'. now rewrite lookup_empty in Hc'. }
    destruct (Status_outcome service d0) as (d1 & Hrun' & _).
    rewrite Hrun' in Hrun. rewrite Hnone in Hrun.
    destruct (String.eqb (find service (world d0)) "");
      injection Hrun as <- <- <-; discriminate.
Qed.

End Engine.

(** ** The lock and the registry *)

Lemma under_bind {A B : Type} (m : M A) (f : A → M B) :
  under_the_lock m → (∀ a, under_the_lock (f a)) → under_the_lock (m ≫= f).
Proof.
  intros Hm Hf d Hd. destruct (Hm d Hd) as (Hl & new & Hacc & Hnew).
  unfold mbind, M_bind. destruct (m d) as [a d'|d'|d'|code d']; simpl in *.
  - destruct (Hf a d' Hl) as (Hl' & new' & Hacc' & Hnew'). split; [assumption |].
    exists (new' ++ new). rewrite Hacc', Hacc, app_assoc. split; [reflexivity |].
    now apply Forall_app.
  - eauto.
  - eauto.
  - eauto.
Qed.

Lemma under_keep {A : Type} (m : M A) :
  (∀ d, lock (state_of (m d)) = lock d ∧ accesses (state_of (m d)) = accesses d) →
  under_the_lock m.
Proof.
  intros H d Hd. destruct (H d) as [Hl Ha]. split; [congruence |].
  exists []. now rewrite Ha.
Qed.

Lemma under_ret {A : Type} (a : A) : under_the_lock (mret a : M A).
Proof. now apply under_keep. Qed.

Lemma under_gets {A : Type} (f : Daemon → A) : under_the_lock (gets f).
Proof. now apply under_keep. Qed.

Lemma under_sys {A : Type} (call : World → A * World) : under_the_lock (sys call).
Proof.
  apply under_keep. intros d. unfold sys. now destruct (call (world d)).
Qed.

Lemma under_blocking (call : World → option World) : under_the_lock (blocking call).
Proof.
  apply under_keep. intros d. unfold blocking. now destruct (call (world d)).
Qed.

Lemma under_log (l : LogLine) : under_the_lock (log l).
Proof. now apply under_keep. Qed.

Lemma under_go (g : Goroutine) : under_the_lock (go g).
Proof. now apply under_keep. Qed.

Lemma under_panic {A : Type} : under_the_lock (panic : M A).
Proof. now apply under_keep. Qed.

Lemma under_record (k : AccessKind) (key : string) : under_the_lock (record k key).
Proof.
  intros d Hd. split; [assumption |]. simpl.
  exists [{| kind := k; key := key; under_lock := lock d |}].
  split; [reflexivity |]. now repeat constructor.
Qed.

Lemma under_map_get (key : string) : under_the_lock (map_get key).
Proof. apply under_bind; [apply under_record | intros _; apply under_gets]. Qed.

Lemma under_map_set (key : string) (c : Cmd) : under_the_lock (map_set key c).
Proof. apply under_bind; [apply under_record | intros _; now apply under_keep]. Qed.

Lemma under_map_delete (key : string) : under_the_lock (map_delete key).
Proof. apply under_bind; [apply under_record | intros _; now apply under_keep]. Qed.

Lemma under_command_Start (service : string) (c : Cmd) :
  under_the_lock (command_Start service c).
Proof.
  apply under_bind; [apply under_sys | intros [pid|e]]; [| apply under_ret].
  apply under_bind; [now apply under_keep | intros _; apply under_ret].
Qed.

Ltac under_step :=
  first
    [ apply under_map_get
    | apply under_map_set
    | apply under_map_delete
    | apply under_command_Start
    | apply under_log
    | apply under_go
    | apply under_bind; [| intros ?]
    | apply under_ret
    | apply under_gets
    | apply under_sys
    | apply under_blocking
    | apply under_panic
    | match goal with
      | |- under_the_lock (match ?x with _ => _ end) => destruct x
      end ].

(** Whatever runs as [locked body] from a goroutine adds only accesses
    made under the lock. *)
Lemma locked_guarded {A : Type} (body : M A) (d : Daemon) :
  under_the_lock body →
  ∃ new, accesses (state_of (locked body d)) = new ++ accesses d ∧
         Forall (λ a, under_lock a = true) new.
Proof.
  intros Hb. destruct (Hb (with_lock true d) eq_refl) as (_ & new & Hacc & Hnew).
  exists new. split; [| assumption].
  unfold locked. unfold_m. simpl.
  destruct (body (with_lock true d)); simpl in *; assumption.
Qed.

(** The five control operations access the registry under the lock
    only. *)
Lemma control_operations_guarded (Deserialize : string → result (list UnitOption))
    (service : string) (try : Z) (d : Daemon) :
  Forall (λ d', ∃ new, accesses d' = new ++ accesses d ∧
                       Forall (λ a, under_lock a = true) new)
    [state_of (Enable service d); state_of (Disable service d);
     state_of (Start Deserialize service try d); state_of (Stop service d);
     state_of (Status service d)].
Proof.
  repeat constructor; apply locked_guarded; unfold ask; repeat under_step.
Qed.

(** The watcher goroutine, which holds no lock, reads the registry when
    the policy is ["always"]. *)
Lemma watcher_read_unguarded (service : string) (opts : list UnitOption)
    (exitCode : Z) (d : Daemon) :
  lock d = false →
  value_or_empty (getOptions opts "Service" "Restart") = "always" →
  accesses (state_of (watcher_exited service opts exitCode d)) =
    {| kind := MapRead; key := service; under_lock := false |} :: accesses d.
Proof.
  intros Hl Hp.
  destruct (watcher_exited_outcome service opts exitCode d)
    as (d' & Hrun & _ & _ & _ & _ & _ & Hacc).
  rewrite Hrun. simpl. rewrite Hacc, Hp, Hl. reflexivity.
Qed.

(** C9 (the code at its failing input). [sleep] has [Restart=always];
    it is started and its child exits with code 1. The daemon has then
    accessed the registry three times: the read and the write of [Start]
    under the lock, and last the read of the watcher goroutine, made
    with no lock held. *)
Theorem C9_watcher_reads_registry_unlocked :
  accesses
    (state_of
       (run simple_Deserialize
          [Connection (Some "start:sleep"); ChildExit 0 1] (boot sample_world))) =
  [{| kind := MapRead; key := "sleep"; under_lock := false |};
   {| kind := MapWrite; key := "sleep"; under_lock := true |};
   {| kind := MapRead; key := "sleep"; under_lock := true |}].
Proof. vm_compute. reflexivity. Qed.

(** ** The claims at concrete inputs *)

(** [false] has [Restart=on-failure]. When its child exits with code 0
    the watcher is over, with nothing left to restart it; when it exits
    with code 1 the watcher goes to sleep with its 3 attempts. *)
Lemma C1_false_exits :
  goroutines false_running !! 0%nat = Some (Watching "false" 3 100 false_opts) ∧
  (∃ d', step simple_Deserialize (ChildExit 0 0) false_running = Done tt d' ∧
         goroutines d' = []) ∧
  (∃ d', step simple_Deserialize (ChildExit 0 1) false_running = Done tt d' ∧
         goroutines d' = [Sleeping "false" 3]).
Proof.
  split; [vm_compute; reflexivity |]. split.
  - destruct (C1_restart_policy simple_Deserialize 0 0 false_running "false" 3 100
                false_opts)
      as (d' & Hrun & _ & Hclean & _); [vm_compute; reflexivity |].
    exists d'. split; [exact Hrun |].
    rewrite Hclean; [vm_compute; reflexivity | reflexivity | reflexivity].
  - destruct (C1_restart_policy simple_Deserialize 0 1 false_running "false" 3 100
                false_opts)
      as (d' & Hrun & _ & _ & _ & Hretry); [vm_compute; reflexivity |].
    exists d'. split; [exact Hrun |].
    destruct Hretry as [Hg _].
    + intros [_ H]. discriminate.
    + intros [H _]. discriminate.
    + rewrite Hg. vm_compute. reflexivity.
Defined.

(** [false] started with 3 attempts and failing five times over is
    restarted at most 3 times. *)
Lemma C2_three_attempts :
  0 ≤ 3 ∧
  ∃ d1,
    ((∃ r, Start simple_Deserialize "false" 3 (boot sample_world) = Done r d1) ∨
     Start simple_Deserialize "false" 3 (boot sample_world) = Blocked d1) ∧
    Z.of_nat (restarts "false"
                (logs (state_of (run simple_Deserialize (keeps_failing 5) d1)))) ≤ 3.
Proof.
  split; [lia |].
  destruct (C2_restart_budget simple_Deserialize "false" 3 (boot sample_world)
              (keeps_failing 5))
    as (_ & _ & d1 & Hrun & Hbound); [lia | repeat constructor |].
  exists d1. split; [exact Hrun | exact Hbound].
Defined.

(** It is restarted exactly 3 times: the bound is reached. *)
Example persistent_failure_uses_the_budget :
  restarts "false"
    (logs (state_of (run simple_Deserialize (keeps_failing 5) false_running))) = 3%nat.
Proof. vm_compute. reflexivity. Qed.

(** Any operation the [switch] does not know is answered with
    ["success"], [reload] as well as [restart]. *)
Example reload_answers_success :
  handleConnection simple_Deserialize (Some "reload:nginx") (boot sample_world) =
  Done (Some "success") (boot sample_world).
Proof.
  apply unknown_operation_answers_success; reflexivity.
Qed.

(** The message is not split on its first colon only: of ["stop:a:b"]
    the handler dispatches on the name ["a"], where a split on the first
    colon gives ["a:b"]. *)
Lemma C6_second_colon_cuts_the_name :
  request_of "stop:a:b" = Some ("stop", "a") ∧
  claimed_request "stop:a:b" = Some ("stop", "a:b") ∧
  request_of "stop:a:b" ≠ claimed_request "stop:a:b" ∧
  logs (state_of (handleConnection simple_Deserialize (Some "stop:a:b")
                    (boot sample_world))) = [LRequest "stop" "a"].
Proof. repeat split; try reflexivity. discriminate. Qed.

(** The loop of [Start] runs over [split[1:]]: the first field of
    [ExecStart] is the name of the executable and is passed on as
    written, also when it begins with ["$"]. *)
Example executable_is_literal :
  os_Getenv sample_world "CMD" = "/bin/true" ∧
  Args (command_of sample_world "$CMD -x" "") = ["$CMD"; "-x"] ∧
  ¬ sigil_never_literal sample_world "$CMD -x".
Proof.
  repeat split; try reflexivity.
  intros H. apply (H "$CMD"); [| reflexivity |]; apply list_elem_of_here.
Qed.

(** [Enable] does not fail for an unresolved unit file only: enabling
    a service that is already enabled returns an error although its unit
    file resolves. *)
Lemma C8_enable_twice_fails :
  find "sleep" enabled_world = "/etc/systemd/system/sleep.service" ∧
  Enable "sleep" (boot enabled_world) =
    Done (Some ("symlink /etc/systemd/system/sleep.service "
                +:+ "/etc/systemd/system/multi-user.target.wants/sleep.service"
                +:+ ": file exists"))
         (boot enabled_world).
Proof. split; vm_compute; reflexivity. Qed.

(** [Start] is not atomic where it does return an error. On [broken],
    which runs as PID 7, a process that reacts to [SIGTERM], and whose
    unit has lost its [ExecStart], the process is terminated and the
    registry keeps it; on [ghost], whose executable does not exist, the
    registry holds the command that was never launched. *)
Example broken_and_ghost :
  (∃ err d',
     Start simple_Deserialize "broken" 5 broken_running = Done (Some err) d' ∧
     mapCommand d' !! "broken" = Some old_command ∧
     alive (world d') = ∅ ∧
     delivered (world d') = [(7, SIGTERM)]) ∧
  (∃ err d' command,
     Start simple_Deserialize "ghost" 5 (boot sample_world) = Done (Some err) d' ∧
     mapCommand d' !! "ghost" = Some command ∧
     Process command = None ∧
     Path command = "/opt/ghost").
Proof.
  split.
  - eexists _, _. split; [vm_compute; reflexivity |].
    repeat split; vm_compute; reflexivity.
  - eexists _, _, _. split; [vm_compute; reflexivity |].
    repeat split; vm_compute; reflexivity.
Qed.

(** A name without a slash is looked up in the directories of [$PATH],
    in their order, and [Path] is what the lookup found; [Args[0]] stays
    the name as written. *)
Example bare_name_goes_through_PATH :
  let w := with_environ {[ "PATH" := "/usr/local/bin:/usr/bin:/bin" ]}
             (with_executables {[ "/usr/bin/sleep"; "/bin/sleep" ]} sample_world) in
  Path (command_of w "sleep 100" "") = "/usr/bin/sleep" ∧
  Args (command_of w "sleep 100" "") = ["sleep"; "100"] ∧
  Err_ (command_of w "sleep 100" "") = None ∧
  Path (command_of w "ghost" "") = "ghost" ∧
  is_Some (Err_ (command_of w "ghost" "")) ∧
  launches w (command_of w "ghost" "") = false.
Proof. repeat split; try (vm_compute; reflexivity). vm_compute. eauto. Qed.

(** The three ways of [Stop]: a child that exits in time, one that has
    to be killed, and one that is gone already. *)
Example Stop_three_ways :
  let stop alive stubborn :=
    delivered
      (world
         (state_of
            (Stop "broken"
               (with_mapCommand {[ "broken" := old_command ]}
                  (boot {| fs := ∅; environ := ∅; executables := ∅;
                           alive := alive; stubborn := stubborn;
                           next_pid := 8; delivered := [] |}))))) in
  stop {[ 7 ]} ∅ = [(7, SIGTERM)] ∧
  stop {[ 7 ]} {[ 7 ]} = [(7, SIGKILL); (7, SIGTERM)] ∧
  stop ∅ ∅ = [].
Proof. repeat split; vm_compute; reflexivity. Qed.

(** [Stop] on a command that was never launched dereferences its nil
    [Process]. *)
Example Stop_never_launched_panics :
  ∃ d', Start simple_Deserialize "ghost" 5 (boot sample_world)
          = Done (Some "fork/exec /opt/ghost: no such file or directory") d' ∧
        ∃ d'', Stop "ghost" d' = Panic d''.
Proof.
  eexists. split; [vm_compute; reflexivity |].
  eexists. vm_compute. reflexivity.
Qed.

(** A service that was never started is reported as exited, also while
    another one runs. *)
Example Status_of_never_started :
  ∃ d', Status "false"
          (state_of (run simple_Deserialize [Connection (Some "start:sleep")]
                       (boot sample_world))) = Done ("exited", None) d'.
Proof. eexists. vm_compute. reflexivity. Qed.

(** * Further properties of the code *)

(** ** Unit options and unit files *)

(** X1. [getOptions] fails, with the text that names the option, exactly
    when no option of the list has that section and name; otherwise it
    returns the value of the first one that has, whatever follows. *)
Theorem getOptions_first_match (list : list UnitOption) (section name : string) :
  (getOptions list section name =
     Err ("option " +:+ section +:+ "." +:+ name +:+ " not found")
   ↔ Forall (λ o, ¬ (Section_ o = section ∧ Name o = name)) list) ∧
  (∀ before o behind,
      list = before ++ o :: behind →
      Forall (λ o', ¬ (Section_ o' = section ∧ Name o' = name)) before →
      Section_ o = section → Name o = name →
      getOptions list section name = Ok (Value o)).
Proof.
  split.
  - induction list as [|o rest IH]; simpl.
    + split; [constructor | reflexivity].
    + destruct (String.eqb_spec (Section_ o) section) as [Hs|Hs];
        destruct (String.eqb_spec (Name o) name) as [Hn|Hn]; simpl.
      * split; [discriminate |]. intros H. inversion H as [|? ? Ho _]. tauto.
      * rewrite IH. split; [intros H; constructor; tauto |].
        intros H. now inversion H.
      * rewrite IH. split; [intros H; constructor; tauto |].
        intros H. now inversion H.
      * rewrite IH. split; [intros H; constructor; tauto |].
        intros H. now inversion H.
  - intros before o behind -> Hbefore Hs Hn.
    induction Hbefore as [|o' before Ho' _ IH]; simpl.
    + now rewrite Hs, Hn, !String.eqb_refl.
    + destruct (String.eqb_spec (Section_ o') section) as [Hs'|Hs'];
        destruct (String.eqb_spec (Name o') name) as [Hn'|Hn']; simpl;
        tauto.
Qed.

(** X2. [find] prefers the user directory: a unit file there wins also
    when the system directory has one; the system directory is used
    only when the user directory has none; and a path that [find]
    returns is one that [os.Stat] accepts. *)
Theorem find_prefers_user_directory (service : string) (w : World) :
  (os_Stat w (unit_path usrPath service) = true →
   find service w = unit_path usrPath service) ∧
  (os_Stat w (unit_path usrPath service) = false →
   os_Stat w (unit_path sysPath service) = true →
   find service w = unit_path sysPath service) ∧
  (find service w ≠ "" → os_Stat w (find service w) = true).
Proof.
  unfold find.
  destruct (os_Stat w (unit_path usrPath service)) eqn:Hu;
    destruct (os_Stat w (unit_path sysPath service)) eqn:Hs;
    repeat split; intros; congruence.
Qed.

(** ** The wire format *)

Lemma substring_all (n : nat) (s : string) :
  (String.length s ≤ n)%nat → String.substring 0 n s = s.
Proof.
  revert n. induction s as [|c s IH]; intros [|n] H; simpl in *; try lia;
    try reflexivity.
  now rewrite IH by lia.
Qed.

Lemma dispatch_unknown (Deserialize : string → result (list UnitOption))
    (op name : string) (d : Daemon) :
  recognized op = false →
  dispatch Deserialize op name d = Done (Some "success") d.
Proof.
  intros H. apply recognized_false in H as (H1 & H2 & H3 & H4 & H5 & H6).
  unfold dispatch. now rewrite H1, H2, H3, H4, H5, H6.
Qed.

Lemma request_of_message (op service : string) :
  strings_Contains op ":" = false →
  request_of (op +:+ ":" +:+ service) =
    Some (op, strings_ReplaceAll (hd "" (strings_Split service ":")) ".service" "").
Proof.
  intros Hop. unfold request_of.
  change (":" +:+ service) with (String ":" service).
  rewrite (Split_first op service ":" Hop).
  pose proof (Split_nonempty service ":").
  destruct (strings_Split service ":"); [congruence | reflexivity].
Qed.

Section Wire.

Variable Deserialize : string → result (list UnitOption).

(** X3. For an operation and a service name without colons, what
    [send] writes is read by the handler as that operation and the name
    with every [".service"] in it removed, wherever it stands. A name
    that holds [".service"] nowhere is therefore read as it was sent,
    and for such a name the unit suffix is optional: the message with
    the suffix is handled exactly as the message without it. *)
Theorem suffix_is_optional (op name : string) (d : Daemon) :
  strings_Contains op ":" = false →
  strings_Contains name ":" = false →
  request_of (op +:+ ":" +:+ name) =
    Some (op, strings_ReplaceAll name ".service" "") ∧
  (strings_Contains name ".service" = false →
   request_of (op +:+ ":" +:+ name) = Some (op, name) ∧
   handleConnection Deserialize (Some (op +:+ ":" +:+ name +:+ ".service")) d =
     handleConnection Deserialize (Some (op +:+ ":" +:+ name)) d).
Proof.
  intros Hop Hcolon.
  assert (Hread : request_of (op +:+ ":" +:+ name) =
                    Some (op, strings_ReplaceAll name ".service" "")).
  { rewrite (request_of_message op _ Hop).
    now rewrite (Split_absent name ":" Hcolon). }
  split; [exact Hread |]. intros Hname.
  assert (Hsuffix : strings_Contains (name +:+ ".service") ":" = false).
  { clear Hname Hread. induction name as [|c name IH]; [reflexivity |].
    rewrite append_cons, Contains_byte_cons.
    rewrite Contains_byte_cons in Hcolon. apply orb_false_elim in Hcolon as [Hc Hb].
    now rewrite Hc, (IH Hb). }
  split.
  - now rewrite Hread, (ReplaceAll_absent name ".service" "" Hname).
  - unfold handleConnection.
    rewrite !(request_of_message op _ Hop).
    rewrite (Split_absent name ":" Hcolon), (Split_absent _ ":" Hsuffix). simpl hd.
    rewrite (ReplaceAll_trailing "." "service" name "" eq_refl Hname), append_empty_r.
    now rewrite (ReplaceAll_absent name ".service" "" Hname).
Qed.

(** X4. A reboot message makes the daemon exit with code 0 on the spot,
    whatever follows the colon: nothing is written back, and nothing but
    the log line is left behind. *)
Theorem reboot_exits (rest : string) (d : Daemon) :
  handleConnection Deserialize (Some ("reboot:" +:+ rest)) d =
  Exit 0 (with_logs (LReboot :: logs d) d).
Proof.
  unfold handleConnection.
  change ("reboot:" +:+ rest) with ("reboot" +:+ ":" +:+ rest).
  rewrite (request_of_message "reboot" rest eq_refl). reflexivity.
Qed.

End Wire.

(** ** [Start], on success and on its early errors *)

Lemma find_fs (service : string) (w w' : World) :
  fs w = fs w' → find service w = find service w'.
Proof. intros H. unfold find, os_Stat. now rewrite H. Qed.

Section StartOutcome.

Variable Deserialize : string → result (list UnitOption).

(** X5. When the unit file cannot be found, read or parsed, [Start]
    returns the error before it looks at the registry: the registry,
    the world and the goroutines are as they were, so a process that
    runs for the service is left running. *)
Theorem Start_early_errors_change_nothing (service : string) (try : Z) (d : Daemon) :
  (find service (world d) = "" ∨
   (∃ e, os_ReadFile (world d) (find service (world d)) = Err e) ∨
   (∃ file e, os_ReadFile (world d) (find service (world d)) = Ok file ∧
              Deserialize file = Err e)) →
  ∃ err d',
    Start Deserialize service try d = Done (Some err) d' ∧
    mapCommand d' = mapCommand d ∧ world d' = world d ∧
    goroutines d' = goroutines d ∧ accesses d' = accesses d ∧
    (find service (world d) = "" → err = "no service found") ∧
    (∀ file e, find service (world d) ≠ "" →
               os_ReadFile (world d) (find service (world d)) = Ok file →
               Deserialize file = Err e →
               err = "failed to parse service file: " +:+ e).
Proof.
  intros H. unfold Start, parseSystemdService. unfold_m. simpl.
  destruct (String.eqb_spec (find service (world d)) "") as [Hf|Hf]; simpl.
  - eexists _, _. split; [reflexivity |]. simpl. repeat split; try reflexivity.
    intros file e Hne. contradiction.
  - destruct H as [H|[(e & He)|(file & e & Hr & Hp)]]; [contradiction | |].
    + rewrite He. simpl. eexists _, _. split; [reflexivity |]. simpl.
      repeat split; try reflexivity; [contradiction | congruence].
    + rewrite Hr. simpl. rewrite Hp. simpl.
      eexists _, _. split; [reflexivity |]. simpl.
      repeat split; try reflexivity; [contradiction |].
      intros file' e' _ Hr' Hp'. congruence.
Qed.


(** X7. After a [Start] that returned [nil], [Status] answers
    ["running"]. *)
Theorem Start_then_Status_running (service : string) (try : Z) (d d' : Daemon) :
  Start Deserialize service try d = Done None d' →
  ∃ d'', Status service d' = Done ("running", None) d''.
Proof.
  intros Hstart.
  pose proof (Start_outcome Deserialize service try d) as H.
  rewrite Hstart in H.
  destruct H as (Hfs & _ & Hfind & command & opts & Hm & Ha & _).
  destruct (Status_outcome service d') as (d'' & Hstatus & _).
  exists d''. rewrite Hstatus, Hm. simpl.
  rewrite (find_fs service (world d') (world d) Hfs).
  destruct (String.eqb_spec (find service (world d)) ""); [contradiction |].
  unfold isProcessRunning. now rewrite bool_decide_eq_true_2.
Qed.

End StartOutcome.

(** ** What the control operations leave alone *)

Section Preserved.

Variable R : Daemon → Daemon → Prop.
Hypothesis R_refl : ∀ d, R d d.
Hypothesis R_trans : ∀ d1 d2 d3, R d1 d2 → R d2 d3 → R d1 d3.

Lemma preserved_ret {A : Type} (a : A) : preserved R (mret a : M A).
Proof. intros d. apply R_refl. Qed.

Lemma preserved_gets {A : Type} (f : Daemon → A) : preserved R (gets f).
Proof. intros d. apply R_refl. Qed.

Lemma preserved_panic {A : Type} : preserved R (panic : M A).
Proof. intros d. apply R_refl. Qed.

Lemma preserved_Exit {A : Type} (code : Z) : preserved R (os_Exit code : M A).
Proof. intros d. apply R_refl. Qed.

Lemma preserved_modify (f : Daemon → Daemon) :
  (∀ d, R d (f d)) → preserved R (modify f).
Proof. intros H d. apply H. Qed.

Lemma preserved_sys {A : Type} (call : World → A * World) :
  (∀ d, R d (with_world (call (world d)).2 d)) → preserved R (sys call).
Proof.
  intros H d. specialize (H d). unfold sys.
  now destruct (call (world d)) as [a w].
Qed.

Lemma preserved_bind {A B : Type} (m : M A) (f : A → M B) :
  preserved R m → (∀ a, preserved R (f a)) → preserved R (m ≫= f).
Proof.
  intros Hm Hf d. specialize (Hm d). unfold mbind, M_bind.
  destruct (m d) as [a d'|d'|d'|code d']; simpl in *; [| assumption..].
  apply (R_trans d d'); [assumption | apply Hf].
Qed.

End Preserved.

Ltac preserved_step solve_state :=
  first
    [ apply preserved_bind; [assumption | | intros ?]
    | apply preserved_ret; assumption
    | apply preserved_gets; assumption
    | apply preserved_panic; assumption
    | apply preserved_Exit; assumption
    | apply preserved_modify; intros ?; solve_state
    | apply preserved_sys; intros ?; solve_state
    | match goal with
      | |- preserved _ (match ?x with _ => _ end) => destruct x
      end ].

Ltac unfold_primitives :=
  unfold locked, map_get, map_set, map_delete;
  unfold lock_Lock, lock_Unlock, record, go, log, ask.

Lemma inert_refl (d : Daemon) : inert d d.
Proof. now repeat split. Qed.

Lemma inert_trans (d1 d2 d3 : Daemon) : inert d1 d2 → inert d2 d3 → inert d1 d3.
Proof.
  intros (A1 & B1 & C1 & D1 & E1 & F1) (A2 & B2 & C2 & D2 & E2 & F2).
  repeat split; congruence.
Qed.

Lemma same_watchers_refl (d : Daemon) : same_watchers d d.
Proof. now split. Qed.

Lemma same_watchers_trans (d1 d2 d3 : Daemon) :
  same_watchers d1 d2 → same_watchers d2 d3 → same_watchers d1 d3.
Proof.
  intros [A1 B1] [A2 B2]. split; [congruence |].
  intros name. now rewrite B2, B1.
Qed.

Ltac inert_state :=
  unfold os_Symlink, os_Remove; simpl;
  repeat match goal with
         | |- context [match ?x with _ => _ end] => destruct x; simpl
         end;
  now repeat split.

Ltac inert_tac :=
  unfold_primitives;
  pose proof inert_refl; pose proof inert_trans;
  repeat preserved_step inert_state.

Ltac watchers_state :=
  unfold Process_Signal, Process_Wait_5s; simpl;
  repeat match goal with
         | |- context [match ?x with _ => _ end] => destruct x; simpl
         end;
  now split.

Ltac watchers_tac :=
  unfold_primitives;
  pose proof same_watchers_refl; pose proof same_watchers_trans;
  repeat preserved_step watchers_state.


(** X8. [Enable], [Disable] and [Status] change neither the registry
    nor the goroutines nor the log nor any process: no entry is added or
    removed, nothing is signalled, launched or reaped. *)
Theorem bookkeeping_is_inert (service : string) (d : Daemon) :
  inert d (state_of (Enable service d)) ∧
  inert d (state_of (Disable service d)) ∧
  inert d (state_of (Status service d)).
Proof.
  split; [| split].
  - assert (H : preserved inert (Enable service)) by (unfold Enable; inert_tac).
    apply H.
  - assert (H : preserved inert (Disable service)) by (unfold Disable; inert_tac).
    apply H.
  - assert (H : preserved inert (Status service)) by (unfold Status; inert_tac).
    apply H.
Qed.

(** [Stop] leaves the waiting goroutines alone, its own watcher
    included, and logs no restart. *)
Lemma Stop_same_watchers (service : string) : preserved same_watchers (Stop service).
Proof. unfold Stop. watchers_tac. Qed.

(** ** [Stop] and what follows it *)

Lemma Stop_returns_without_entry (service : string) (d : Daemon) (r : option string)
    (d1 : Daemon) :
  Stop service d = Done r d1 →
  mapCommand d1 !! service = None ∧ world d1 = world d ∨
  mapCommand d1 !! service = None ∧ r = None.
Proof.
  intros Hrun. pose proof (Stop_outcome service d) as H.
  destruct (mapCommand d !! service) as [c|] eqn:Hc.
  - destruct (Process c) as [pid|].
    + destruct H as (d' & H & Hm & _). rewrite H in Hrun. injection Hrun as <- <-.
      right. split; [| reflexivity]. rewrite Hm. apply lookup_delete_eq.
    + destruct H as (d' & H). congruence.
  - destruct H as (d' & H & Hm & Hw). rewrite H in Hrun. injection Hrun as <- <-.
    left. split; [now rewrite Hm | assumption].
Qed.

(** X9. In the state in which [Stop] returns, with or without an error,
    [Status] does not answer ["running"] for the service: asked before
    anything else happens, it answers ["exited"], or fails because the
    unit file is gone. (What a watcher does to that state later is
    another matter: X10 and X11.) *)
Theorem Stop_then_Status_not_running (service : string) (d : Daemon)
    (r : option string) (d1 : Daemon) :
  Stop service d = Done r d1 →
  ∃ d2, Status service d1 = Done ("exited", None) d2 ∨
        Status service d1 = Done ("", Some "no service found") d2.
Proof.
  intros Hrun.
  assert (Hnone : mapCommand d1 !! service = None).
  { destruct (Stop_returns_without_entry service d r d1 Hrun) as [[H _]|[H _]];
      assumption. }
  destruct (Status_outcome service d1) as (d2 & Hstatus & _).
  exists d2. rewrite Hstatus, Hnone.
  destruct (String.eqb (find service (world d1)) ""); [now right | now left].
Qed.

Section AfterStop.

Variable Deserialize : string → result (list UnitOption).

(** A retry with attempts left, for a service that has nothing
    registered: [Start] has no process to wait for, and the retry
    returns. *)
Lemma watcher_retry_positive (service : string) (t : Z) (d : Daemon) :
  0 < t →
  mapCommand d !! service = None →
  ∃ d1,
    watcher_retry Deserialize service t d = Done tt d1 ∧
    restarts service (logs d1) = S (restarts service (logs d)) ∧
    LStarting service (t - 1) ∈ logs d1.
Proof.
  intros Ht Hnone. unfold watcher_retry.
  destruct (Z.gtb_spec t 0); [| lia]. unfold_m. simpl.
  match goal with
  | |- context [Start Deserialize service (t - 1) ?d0] =>
      destruct (Start_returns Deserialize service (t - 1) d0) as (r & d2 & Hrun);
        [simpl; intros c pid Hc; rewrite Hnone in Hc; discriminate |];
      destruct (Start_effect Deserialize service (t - 1) d0)
        as (d2' & Hstate & Hre & _ & Hs & _)
  end.
  rewrite Hrun in Hstate |- *. simpl in Hstate. subst d2'.
  specialize (Hre service). simpl in Hre.
  rewrite String.eqb_refl in Hre.
  destruct r as [e|]; simpl; eexists; (split; [reflexivity |]); simpl;
    (split; [assumption |]); auto using list_elem_of_further.
Qed.

Lemma Wakeup_runs_retry (j : nat) (service : string) (t : Z) (d : Daemon) :
  goroutines d !! j = Some (Sleeping service t) →
  step Deserialize (Wakeup j) d =
    watcher_retry Deserialize service t (with_goroutines (delete j (goroutines d)) d).
Proof. intros H. unfold step. unfold_m. simpl. now rewrite H. Qed.

(** The watcher of a child that [Stop] is about to stop, or has stopped,
    has gone to sleep with attempts left: on waking it starts the
    service again. *)
Lemma sleeper_restarts (service : string) (t : Z) (d : Daemon) (before : list Goroutine) :
  goroutines d = before ++ [Sleeping service t] →
  mapCommand d !! service = None →
  0 < t →
  ∃ d',
    step Deserialize (Wakeup (length before)) d = Done tt d' ∧
    restarts service (logs d') = S (restarts service (logs d)) ∧
    LStarting service (t - 1) ∈ logs d'.
Proof.
  intros Hg Hnone Ht.
  assert (Hj : goroutines d !! length before = Some (Sleeping service t))
    by (rewrite Hg; now apply list_lookup_middle).
  rewrite (Wakeup_runs_retry _ service t d Hj).
  apply (watcher_retry_positive service t
           (with_goroutines (delete (length before) (goroutines d)) d) Ht Hnone).
Qed.

(** The watcher makes its check inside [Stop], after the child is gone
    and before the delete: under the policy ["always"] it finds the
    entry still there and goes to sleep, and [Stop] goes on to delete
    the entry and returns [nil]. *)
Lemma Stop_while_the_watcher_checks (i : nat) (exitCode : Z) (d : Daemon)
    (service : string) (t pid p : Z) (opts : list UnitOption) (command : Cmd) :
  goroutines d !! i = Some (Watching service t pid opts) →
  mapCommand d !! service = Some command →
  Process command = Some p →
  value_or_empty (getOptions opts "Service" "Restart") = "always" →
  ∃ d2,
    Stop_while (step Deserialize (ChildExit i exitCode)) service d = Done None d2 ∧
    mapCommand d2 !! service = None ∧
    goroutines d2 = delete i (goroutines d) ++ [Sleeping service t] ∧
    ∀ name, restarts name (logs d2) = restarts name (logs d).
Proof.
  intros Hi Hc Hp Hpolicy.
  remember (step Deserialize (ChildExit i exitCode)) as watcher eqn:Hwatcher.
  assert (Hwatch : ∀ d0, goroutines d0 = goroutines d → mapCommand d0 = mapCommand d →
            ∃ d1, watcher d0 = Done tt d1 ∧
                  mapCommand d1 = mapCommand d ∧
                  goroutines d1 = delete i (goroutines d) ++ [Sleeping service t] ∧
                  ∀ name, restarts name (logs d1) = restarts name (logs d0)).
  { intros d0 Hg0 Hm0. subst watcher.
    destruct (ChildExit_outcome Deserialize i exitCode d0 service t pid opts)
      as (d1 & Hexit & Hm1 & Hre1 & _ & Hg1); [now rewrite Hg0 |].
    rewrite Hpolicy, Hm0, Hc, Hg0 in Hg1. simpl in Hg1.
    exists d1. repeat split; try assumption. now rewrite Hm1. }
  clear Hwatcher.
  unfold Stop_while. unfold_m. simpl. rewrite Hc. simpl. rewrite Hp. simpl.
  unfold Process_Signal, Process_Wait_5s. simpl.
  destruct (decide (p ∈ alive (world d))) as [Ha|Ha]; simpl;
    [rewrite (decide_True (P := p ∈ alive (world d))) by assumption;
     destruct (decide (p ∈ stubborn (world d))); simpl;
     [rewrite (decide_True (P := p ∈ alive (world d))) by assumption; simpl |]
    | rewrite (decide_False (P := p ∈ alive (world d))) by assumption; simpl];
    match goal with
    | |- context [watcher ?d0] =>
        destruct (Hwatch d0 eq_refl eq_refl) as (d1 & Hexit & Hm1 & Hg1 & Hre1)
    end;
    rewrite Hexit; simpl; eexists; (split; [reflexivity |]); simpl;
    (split; [apply lookup_delete_eq |]); (split; [assumption |]);
    intros name; now rewrite Hre1.
Qed.

(** X10. Under the policy ["always"] it depends on the order of two
    events whether a [Stop] cancels the restart, and the program
    enforces neither order: the watcher checks [mapCommand[service] ==
    nil] (line 419) without the lock, and [Stop] deletes the entry (line
    478) at its very end. When the watcher makes its check after the
    delete, it is over and no restart is attempted, whatever the exit
    code. When it makes it before the delete, be it inside [Stop], once
    the child that [Stop] signalled is gone, or before [Stop] is
    entered, it finds the entry and goes to sleep; [Stop] returns [nil]
    all the same, with the entry gone; and with attempts left the
    watcher starts the stopped service again on waking. *)
Theorem Stop_and_the_watcher_under_always (i : nat) (exitCode : Z) (d : Daemon)
    (service : string) (t pid p : Z) (opts : list UnitOption) (command : Cmd) :
  goroutines d !! i = Some (Watching service t pid opts) →
  mapCommand d !! service = Some command →
  Process command = Some p →
  value_or_empty (getOptions opts "Service" "Restart") = "always" →
  (∃ d1 d2,
     Stop service d = Done None d1 ∧
     step Deserialize (ChildExit i exitCode) d1 = Done tt d2 ∧
     goroutines d2 = delete i (goroutines d) ∧
     ∀ name, restarts name (logs d2) = restarts name (logs d)) ∧
  (∃ d2,
     Stop_while (step Deserialize (ChildExit i exitCode)) service d = Done None d2 ∧
     mapCommand d2 !! service = None ∧
     goroutines d2 = delete i (goroutines d) ++ [Sleeping service t] ∧
     (0 < t →
      ∃ d3,
        step Deserialize (Wakeup (length (goroutines d) - 1)) d2 = Done tt d3 ∧
        restarts service (logs d3) = S (restarts service (logs d)) ∧
        LStarting service (t - 1) ∈ logs d3)) ∧
  (∃ d1 d2,
     step Deserialize (ChildExit i exitCode) d = Done tt d1 ∧
     Stop service d1 = Done None d2 ∧
     mapCommand d2 !! service = None ∧
     goroutines d2 = delete i (goroutines d) ++ [Sleeping service t] ∧
     (0 < t →
      ∃ d3,
        step Deserialize (Wakeup (length (goroutines d) - 1)) d2 = Done tt d3 ∧
        restarts service (logs d3) = S (restarts service (logs d)) ∧
        LStarting service (t - 1) ∈ logs d3)).
Proof.
  intros Hi Hc Hp Hpolicy. split; [| split].
  - pose proof (Stop_outcome service d) as H. rewrite Hc, Hp in H.
    destruct H as (d1 & Hstop & Hm & _).
    pose proof (Stop_same_watchers service d) as [Hg Hre].
    rewrite Hstop in Hg, Hre. simpl in Hg, Hre.
    rewrite <- Hg in Hi.
    destruct (ChildExit_outcome Deserialize i exitCode d1 service t pid opts Hi)
      as (d2 & Hexit & _ & Hre2 & _ & Hg2).
    exists d1, d2. split; [assumption |]. split; [assumption |]. split.
    + rewrite Hg2, Hpolicy, Hm, lookup_delete_eq, Hg. simpl. apply app_nil_r.
    + intros name. now rewrite Hre2, Hre.
  - destruct (Stop_while_the_watcher_checks i exitCode d service t pid p opts command)
      as (d2 & Hstop & Hgone & Hg2 & Hre2); try assumption.
    exists d2. split; [assumption |]. split; [assumption |]. split; [assumption |].
    intros Ht.
    destruct (sleeper_restarts service t d2 (delete i (goroutines d)))
      as (d3 & Hwake & Hre3 & Hs3); try assumption.
    rewrite length_delete in Hwake by eauto.
    exists d3. split; [assumption |]. split; [| assumption].
    now rewrite Hre3, Hre2.
  - destruct (ChildExit_outcome Deserialize i exitCode d service t pid opts Hi)
      as (d1 & Hexit & Hm1 & Hre1 & _ & Hg1).
    rewrite Hpolicy, Hc in Hg1. simpl in Hg1.
    pose proof (Stop_outcome service d1) as H. rewrite Hm1, Hc, Hp in H.
    destruct H as (d2 & Hstop & Hm2 & _).
    pose proof (Stop_same_watchers service d1) as [Hg2 Hre2].
    rewrite Hstop in Hg2, Hre2. simpl in Hg2, Hre2.
    assert (Hgone : mapCommand d2 !! service = None)
      by (rewrite Hm2; apply lookup_delete_eq).
    exists d1, d2. split; [assumption |]. split; [assumption |].
    split; [assumption |]. split; [now rewrite Hg2 |].
    intros Ht.
    destruct (sleeper_restarts service t d2 (delete i (goroutines d)))
      as (d3 & Hwake & Hre3 & Hs3); [now rewrite Hg2 | assumption | assumption |].
    rewrite length_delete in Hwake by eauto.
    exists d3. split; [assumption |]. split; [| assumption].
    now rewrite Hre3, Hre2, Hre1.
Qed.

(** X11. Under any other policy a [Stop] does not cancel the restart:
    unless the policy is ["on-failure"] and the exit code 0, the watcher
    of the stopped child goes to sleep when it sees the exit, and with
    attempts left it calls [Start] again on waking, so the service that
    was stopped is started once more. *)
Theorem Stop_does_not_cancel_the_restart (i : nat) (exitCode : Z) (d : Daemon)
    (service : string) (t pid p : Z) (opts : list UnitOption) (command : Cmd) :
  goroutines d !! i = Some (Watching service t pid opts) →
  mapCommand d !! service = Some command →
  Process command = Some p →
  value_or_empty (getOptions opts "Service" "Restart") ≠ "always" →
  ¬ (value_or_empty (getOptions opts "Service" "Restart") = "on-failure"
     ∧ exitCode = 0) →
  0 < t →
  ∃ d1 d2 d3,
    Stop service d = Done None d1 ∧
    mapCommand d1 !! service = None ∧
    step Deserialize (ChildExit i exitCode) d1 = Done tt d2 ∧
    step Deserialize (Wakeup (length (goroutines d) - 1)) d2 = Done tt d3 ∧
    restarts service (logs d3) = S (restarts service (logs d)) ∧
    LStarting service (t - 1) ∈ logs d3.
Proof.
  intros Hi Hc Hp Hpolicy Hclean Ht.
  pose proof (Stop_outcome service d) as H. rewrite Hc, Hp in H.
  destruct H as (d1 & Hstop & Hm & _).
  pose proof (Stop_same_watchers service d) as [Hg Hre].
  rewrite Hstop in Hg, Hre. simpl in Hg, Hre.
  assert (Hi1 : goroutines d1 !! i = Some (Watching service t pid opts))
    by now rewrite Hg.
  destruct (ChildExit_outcome Deserialize i exitCode d1 service t pid opts Hi1)
    as (d2 & Hexit & Hm2 & Hre2 & _ & Hg2).
  assert (Hsleep : goroutines d2 = delete i (goroutines d) ++ [Sleeping service t]).
  { rewrite Hg2, Hg.
    destruct (String.eqb_spec (value_or_empty (getOptions opts "Service" "Restart"))
                "always"); [contradiction |].
    destruct (String.eqb_spec (value_or_empty (getOptions opts "Service" "Restart"))
                "on-failure"); [| reflexivity].
    destruct (Z.eqb_spec exitCode 0); [tauto | reflexivity]. }
  assert (Hj : goroutines d2 !! (length (goroutines d) - 1)%nat = Some (Sleeping service t)).
  { rewrite Hsleep. apply list_lookup_middle.
    rewrite length_delete by eauto. reflexivity. }
  assert (Hgone : mapCommand d1 !! service = None)
    by (rewrite Hm; apply lookup_delete_eq).
  destruct (watcher_retry_positive service t
              (with_goroutines (delete (length (goroutines d) - 1)%nat (goroutines d2)) d2) Ht)
    as (d3 & Hretry & Hre3 & Hs3); [simpl; now rewrite Hm2 |].
  exists d1, d2, d3. repeat split; try assumption.
  - now rewrite (Wakeup_runs_retry _ service t d2 Hj).
  - rewrite Hre3. simpl. now rewrite Hre2, Hre.
Qed.

(** X12. A launch that fails leaves a command without a process in the
    registry: when [Start] gets as far as the launch (it has no process
    to wait for that ignores [SIGTERM]) and the command cannot be
    launched, [Status] then answers ["exited"], and a [Stop] of the
    service dereferences the nil [Process] and takes the daemon down
    instead of returning. *)
Theorem failed_launch_then_Stop_panics (service : string) (try : Z) (d : Daemon)
    (file : string) (opts : list UnitOption) (val : string) :
  find service (world d) ≠ "" →
  os_ReadFile (world d) (find service (world d)) = Ok file →
  Deserialize file = Ok opts →
  getOptions opts "Service" "ExecStart" = Ok val →
  val ≠ "" →
  launches (world d)
    (command_of (world d) val
       (value_or_empty (getOptions opts "Service" "WorkingDirectory"))) = false →
  (∀ command pid,
      mapCommand d !! service = Some command → Process command = Some pid →
      pid ∈ alive (world d) → pid ∉ stubborn (world d)) →
  ∃ err d1,
    Start Deserialize service try d = Done (Some err) d1 ∧
    (∃ d2, Status service d1 = Done ("exited", None) d2) ∧
    (∃ d2, Stop service d1 = Panic d2).
Proof.
  intros Hfind Hread Hparse Hexec Hval Hrefused Hquick.
  destruct (Start_launch_failure Deserialize service try d file opts val)
    as (err & d1 & Hstart & Hm & Hproc); try assumption.
  pose proof (Start_outcome Deserialize service try d) as Hout.
  rewrite Hstart in Hout. destruct Hout as (Hfs & _).
  pose proof (Stop_outcome service d1) as Hstop. rewrite Hm, Hproc in Hstop.
  destruct Hstop as (d2 & Hstop).
  exists err, d1. split; [assumption |]. split.
  - destruct (Status_outcome service d1) as (d3 & Hstatus & _).
    exists d3. rewrite Hstatus, Hm.
    rewrite (find_fs service (world d1) (world d) Hfs).
    destruct (String.eqb_spec (find service (world d)) ""); [contradiction |].
    destruct (command_of _ _ _) as [p a dir proc lookup] eqn:Hcmd.
    simpl in Hproc. now rewrite Hproc.
  - eauto.
Qed.

End AfterStop.

(** ** The boot walk *)

Lemma substring_split (k : nat) (s : string) :
  (k ≤ String.length s)%nat →
  String.substring 0 k s +:+ String.substring k (String.length s - k) s = s.
Proof.
  revert k. induction s as [|c s IH]; intros [|k] H; simpl in *; try lia.
  - reflexivity.
  - rewrite append_empty_l. f_equal. apply substring_all. lia.
  - rewrite append_cons. f_equal. apply IH. lia.
Qed.

(** A name that ends with the suffix is what is left of it after
    [strings.TrimSuffix], followed by the suffix. *)
Lemma TrimSuffix_HasSuffix (s suf : string) :
  strings_HasSuffix s suf = true → strings_TrimSuffix s suf +:+ suf = s.
Proof.
  intros H. unfold strings_TrimSuffix. rewrite H.
  unfold strings_HasSuffix in H. apply andb_true_iff in H as [Hlen Heq].
  apply Nat.leb_le in Hlen. apply String.eqb_eq in Heq.
  pose proof (substring_split (String.length s - String.length suf) s) as Hsplit.
  replace (String.length s - (String.length s - String.length suf))%nat
    with (String.length suf) in Hsplit by lia.
  rewrite Heq in Hsplit. apply Hsplit. lia.
Qed.

Ltac own_start_goal :=
  match goal with
  | |- _ ∧ _ => split; own_start_goal
  | |- ∀ s t, LStarting s t ∈ _ → _ =>
      let H := fresh in
      intros ? ? H;
      repeat (apply elem_of_cons in H as [H|H];
              [first [discriminate | injection H as -> ->; now right] |]);
      now left
  | |- _ => reflexivity
  end.

Section BootWalk.

Variable Deserialize : string → result (list UnitOption).

(** The only "Starting service" line that [Start] logs is its own. *)
Lemma Start_logs_its_own_start (service : string) (try : Z) (d : Daemon) :
  ∀ s t, LStarting s t ∈ logs (state_of (Start Deserialize service try d)) →
         LStarting s t ∈ logs d ∨ (s = service ∧ t = try).
Proof. start_paths Deserialize d service; own_start_goal. Qed.

(** One entry of the walk, when nothing is registered for it: it never
    fails; a unit other than the reserved one is started with 5
    attempts, and nothing else is; no other name of the registry is
    touched. *)
Lemma Domain_walk_outcome (name : string) (d : Daemon) :
  (strings_HasSuffix name ".service" = true →
   mapCommand d !! strings_TrimSuffix name ".service" = None) →
  ∃ d',
    Domain_walk Deserialize name d = Done tt d' ∧
    (∀ l, l ∈ logs d → l ∈ logs d') ∧
    (strings_HasSuffix name ".service" = true →
     name ≠ "e2scrub_reap.service" →
     LStarting (strings_TrimSuffix name ".service") 5 ∈ logs d') ∧
    (∀ s t, LStarting s t ∈ logs d' →
            LStarting s t ∈ logs d ∨
            (strings_HasSuffix name ".service" = true ∧
             name ≠ "e2scrub_reap.service" ∧
             s = strings_TrimSuffix name ".service" ∧ t = 5)) ∧
    (∀ s, (strings_HasSuffix name ".service" = true →
           s ≠ strings_TrimSuffix name ".service") →
          mapCommand d' !! s = mapCommand d !! s).
Proof.
  intros Hfree. unfold Domain_walk.
  destruct (strings_HasSuffix name ".service") eqn:Hsuf;
    [| exists d; repeat split; auto; discriminate].
  destruct (String.eqb_spec name "e2scrub_reap.service") as [Hres|Hres];
    [exists d; repeat split; auto; contradiction |].
  unfold_m.
  destruct (Start_returns Deserialize (strings_TrimSuffix name ".service") 5 d)
    as (r & d1 & Hrun);
    [intros c pid Hc; rewrite (Hfree eq_refl) in Hc; discriminate |].
  destruct (Start_effect Deserialize (strings_TrimSuffix name ".service") 5 d)
    as (d1' & Hstate & _ & Hl & Hs & _ & Hm).
  pose proof (Start_logs_its_own_start (strings_TrimSuffix name ".service") 5 d)
    as Hown.
  rewrite Hrun in Hstate, Hown |- *. simpl in Hstate, Hown. subst d1'.
  destruct r as [e|]; simpl; eexists; (split; [reflexivity |]); simpl.
  - split; [| split; [| split]].
    + intros l Hin. now apply list_elem_of_further, Hl.
    + intros _ _. now apply list_elem_of_further.
    + intros s t Hin. apply elem_of_cons in Hin as [Hin|Hin]; [discriminate |].
      destruct (Hown s t Hin) as [?|[-> ->]]; [now left | right; now repeat split].
    + intros s Hne. apply Hm. now apply Hne.
  - split; [assumption | split; [| split]]; [auto | |].
    + intros s t Hin.
      destruct (Hown s t Hin) as [?|[-> ->]]; [now left | right; now repeat split].
    + intros s Hne. apply Hm. now apply Hne.
Qed.

(** Two entries that end with the suffix and differ are units of
    different names. *)
Lemma TrimSuffix_inj (a b suf : string) :
  strings_HasSuffix a suf = true → strings_HasSuffix b suf = true →
  strings_TrimSuffix a suf = strings_TrimSuffix b suf → a = b.
Proof.
  intros Ha Hb H.
  rewrite <- (TrimSuffix_HasSuffix a suf Ha), <- (TrimSuffix_HasSuffix b suf Hb).
  now rewrite H.
Qed.

(** X13. The boot walk, over the distinct entries of the enablement
    directory and with nothing registered yet for any of its units,
    goes through all its entries whatever [Start] returns for any of
    them: every entry named [*.service], other than
    [e2scrub_reap.service], is started with 5 attempts, nothing else is
    started, and the reserved unit in particular is not. *)
Theorem boot_walk_starts_every_unit (names : list string) (d : Daemon) :
  NoDup names →
  (∀ name, name ∈ names → strings_HasSuffix name ".service" = true →
           mapCommand d !! strings_TrimSuffix name ".service" = None) →
  ∃ d',
    Domain_autostart Deserialize names d = Done tt d' ∧
    (∀ name, name ∈ names →
             strings_HasSuffix name ".service" = true →
             name ≠ "e2scrub_reap.service" →
             LStarting (strings_TrimSuffix name ".service") 5 ∈ logs d') ∧
    (∀ s t, LStarting s t ∈ logs d' →
            LStarting s t ∈ logs d ∨
            (t = 5 ∧ ∃ name, name ∈ names ∧
                             strings_HasSuffix name ".service" = true ∧
                             name ≠ "e2scrub_reap.service" ∧
                             s = strings_TrimSuffix name ".service")) ∧
    (¬ started "e2scrub_reap" (logs d) → ¬ started "e2scrub_reap" (logs d')).
Proof.
  intros Hdistinct Hfree.
  assert (Hmain : ∃ d',
    Domain_autostart Deserialize names d = Done tt d' ∧
    (∀ l, l ∈ logs d → l ∈ logs d') ∧
    (∀ name, name ∈ names →
             strings_HasSuffix name ".service" = true →
             name ≠ "e2scrub_reap.service" →
             LStarting (strings_TrimSuffix name ".service") 5 ∈ logs d') ∧
    (∀ s t, LStarting s t ∈ logs d' →
            LStarting s t ∈ logs d ∨
            (t = 5 ∧ ∃ name, name ∈ names ∧
                             strings_HasSuffix name ".service" = true ∧
                             name ≠ "e2scrub_reap.service" ∧
                             s = strings_TrimSuffix name ".service"))).
  { revert d Hfree.
    induction Hdistinct as [|name names Hfresh Hdistinct IH]; intros d Hfree.
    - exists d. repeat split; auto. intros name Hin. now apply elem_of_nil in Hin.
    - destruct (Domain_walk_outcome name d) as (d1 & Hwalk & Hl1 & Hs1 & Ho1 & Hm1);
        [intros Hsuf; apply Hfree; [apply list_elem_of_here | assumption] |].
      destruct (IH d1) as (d' & Hrest & Hl & Hs & Ho).
      { intros name' Hin Hsuf'. rewrite Hm1.
        - apply Hfree; [now apply list_elem_of_further | assumption].
        - intros Hsuf Heq. apply Hfresh.
          now rewrite <- (TrimSuffix_inj name' name ".service" Hsuf' Hsuf Heq). }
      exists d'. simpl. unfold mbind, M_bind. rewrite Hwalk.
      split; [assumption |]. split; [auto |]. split.
      + intros name' Hin Hsuf Hres.
        apply elem_of_cons in Hin as [->|Hin]; [apply Hl, Hs1 | apply Hs]; assumption.
      + intros s t Hin. destruct (Ho s t Hin) as [Hin1|(-> & name' & Hn & Hrest')].
        * destruct (Ho1 s t Hin1) as [?|(Hsuf & Hres & -> & ->)]; [now left | right].
          split; [reflexivity |]. exists name.
          repeat split; try assumption. apply list_elem_of_here.
        * right. split; [reflexivity |]. exists name'.
          split; [now apply list_elem_of_further | assumption]. }
  destruct Hmain as (d' & Hrun & _ & Hs & Ho).
  exists d'. repeat split; try assumption.
  intros Hnot [t Hin]. destruct (Ho _ _ Hin) as [?|(_ & name & _ & Hsuf & Hres & Htrim)].
  - apply Hnot. now exists t.
  - apply Hres. rewrite <- (TrimSuffix_HasSuffix name ".service" Hsuf).
    now rewrite <- Htrim.
Qed.

End BootWalk.

(** ** Over all traces from boot *)

Lemma stays_in_budget_refl (d : Daemon) : stays_in_budget d d.
Proof. now intros H. Qed.

Lemma stays_in_budget_trans (d1 d2 d3 : Daemon) :
  stays_in_budget d1 d2 → stays_in_budget d2 d3 → stays_in_budget d1 d3.
Proof. intros H1 H2 H. auto. Qed.

Ltac budget_state :=
  unfold stays_in_budget; simpl; now auto.

Ltac budget_tac :=
  unfold_primitives;
  pose proof stays_in_budget_refl; pose proof stays_in_budget_trans;
  repeat preserved_step budget_state.

Lemma budget_Enable (service : string) : preserved stays_in_budget (Enable service).
Proof. unfold Enable. budget_tac. Qed.

Lemma budget_Disable (service : string) : preserved stays_in_budget (Disable service).
Proof. unfold Disable. budget_tac. Qed.

Lemma budget_Stop (service : string) : preserved stays_in_budget (Stop service).
Proof. unfold Stop. budget_tac. Qed.

Lemma budget_Status (service : string) : preserved stays_in_budget (Status service).
Proof. unfold Status. budget_tac. Qed.

Lemma budget_respond (err : option string) : preserved stays_in_budget (respond err).
Proof. unfold respond. budget_tac. Qed.

Lemma budget_watcher_exited (service : string) (opts : list UnitOption) (exitCode : Z) :
  preserved stays_in_budget (watcher_exited service opts exitCode).
Proof. unfold watcher_exited. cbv zeta. budget_tac. Qed.

Section FromBoot.

Variable Deserialize : string → result (list UnitOption).

Lemma budget_Start (service : string) (try : Z) :
  0 ≤ try ≤ 5 → preserved stays_in_budget (Start Deserialize service try).
Proof.
  intros Ht d H.
  destruct (Start_effect Deserialize service try d)
    as (d' & Hrun & _ & _ & _ & [Hg|(pid & opts & Hg)] & _);
    rewrite Hrun, Hg; [assumption |].
  apply Forall_app. split; [assumption |]. now repeat constructor.
Qed.

Lemma budget_watcher_retry (service : string) (try : Z) :
  0 ≤ try ≤ 5 → preserved stays_in_budget (watcher_retry Deserialize service try).
Proof.
  intros Ht. unfold watcher_retry. destruct (Z.gtb_spec try 0).
  - pose proof stays_in_budget_refl. pose proof stays_in_budget_trans.
    unfold_primitives.
    apply preserved_bind; [assumption | apply preserved_modify; intros ?; budget_state |].
    intros _. apply preserved_bind; [assumption | apply budget_Start; lia |].
    intros [e|]; [apply preserved_modify; intros ?; budget_state |].
    now apply preserved_ret.
  - now apply preserved_ret, stays_in_budget_refl.
Qed.

Lemma budget_dispatch (op name : string) :
  preserved stays_in_budget (dispatch Deserialize op name).
Proof.
  pose proof stays_in_budget_refl as Hrefl. pose proof stays_in_budget_trans as Htrans.
  unfold dispatch.
  repeat match goal with
         | |- preserved _ (if ?b then _ else _) => destruct b
         end;
    unfold log;
    repeat first
      [ apply budget_Enable | apply budget_Disable | apply budget_Stop
      | apply budget_Status | apply budget_respond
      | apply budget_Start; lia
      | preserved_step budget_state ].
Qed.

Lemma budget_step (ev : Event) : preserved stays_in_budget (step Deserialize ev).
Proof.
  pose proof stays_in_budget_refl as Hrefl. pose proof stays_in_budget_trans as Htrans.
  destruct ev as [read|entry|i exitCode|i|w].
  - unfold step, handleConnection.
    apply preserved_bind; [assumption | | intros _; now apply preserved_ret].
    destruct read as [msg|]; [| now apply preserved_ret].
    destruct (request_of msg) as [[op name]|]; [| now apply preserved_ret].
    apply budget_dispatch.
  - unfold step, Domain_walk.
    destruct (strings_HasSuffix entry ".service"); [| now apply preserved_ret].
    destruct (String.eqb entry "e2scrub_reap.service"); [now apply preserved_ret |].
    apply preserved_bind; [assumption | apply budget_Start; lia |].
    intros [e|]; [apply preserved_modify; intros ?; budget_state |].
    now apply preserved_ret.
  - intros d H. 
    destruct (goroutines d !! i) as [[service try pid opts|service try]|] eqn:Hi;
      [| unfold step; unfold_m; simpl; now rewrite Hi..].
    destruct (ChildExit_outcome Deserialize i exitCode d service try pid opts Hi)
      as (d' & Hrun & _ & _ & _ & Hg).
    rewrite Hrun. simpl. rewrite Hg. apply Forall_app. split.
    + now apply Forall_delete.
    + pose proof (Forall_lookup_1 _ _ _ _ H Hi) as Hok.
      destruct (_ && _); [constructor; [exact Hok | constructor] | constructor].
  - intros d H.
    destruct (goroutines d !! i) as [[service try pid opts|service try]|] eqn:Hi;
      [unfold step; unfold_m; simpl; now rewrite Hi | |
       unfold step; unfold_m; simpl; now rewrite Hi].
    rewrite (Wakeup_runs_retry Deserialize i service try d Hi).
    pose proof (Forall_lookup_1 _ _ _ _ H Hi) as Hok.
    apply (budget_watcher_retry service try Hok). simpl.
    now apply Forall_delete.
  - intros d H. exact H.
Qed.

(** X14. However the daemon got to where it is from boot, every
    goroutine it has carries between 0 and 5 attempts: a watcher is
    created with 5 by a request or the boot walk, and with one less
    than its parent, which had more than 0, by a retry. *)
Theorem attempts_stay_within_five (w : World) (evs : list Event) :
  Forall in_budget (goroutines (state_of (run Deserialize evs (boot w)))).
Proof.
  assert (H : ∀ d, Forall in_budget (goroutines d) →
                   Forall in_budget (goroutines (state_of (run Deserialize evs d)))).
  { induction evs as [|ev evs IH]; intros d Hd; [assumption |].
    simpl. unfold mbind, M_bind.
    pose proof (budget_step ev d Hd) as Hstep.
    destruct (step Deserialize ev d) as [[] d'|d'|d'|code d']; simpl in *; auto. }
  apply H. constructor.
Qed.

(** X15. However the daemon got to where it is from boot, it has
    attempted at most five restarts of a service for each start request
    for it and each boot-walk entry of it in the trace. *)
Theorem restarts_bounded_by_starts (name : string) (w : World) (evs : list Event) :
  (restarts name (logs (state_of (run Deserialize evs (boot w))))
   ≤ granted_all name evs)%nat ∧
  (granted_all name evs
   ≤ 5 * length (filter (λ ev, granted name ev ≠ 0%nat) evs))%nat.
Proof.
  split.
  - pose proof (effects_run Deserialize name evs (boot w)) as [_ H _].
    simpl in H. lia.
  - induction evs as [|ev evs IH]; [simpl; lia |].
    cbn [granted_all foldr]. fold (granted_all name evs).
    rewrite filter_cons.
    assert (Hfive : (granted name ev = 0 ∨ granted name ev = 5)%nat).
    { destruct ev as [[msg|]|entry| | |]; simpl; auto.
      - destruct (request_of msg) as [[op service]|]; auto.
        destruct (_ && _); auto.
      - destruct (_ && _); auto. }
    destruct (decide (granted name ev ≠ 0%nat)); simpl; lia.
Qed.

End FromBoot.

(** ** The client and the daemon together *)

Lemma substring_prefix (p s : string) (n : nat) :
  (String.length p ≤ n)%nat →
  String.substring 0 n (p +:+ s) = p +:+ String.substring 0 (n - String.length p) s.
Proof.
  revert n. induction p as [|c p IH]; intros n H.
  - rewrite !append_empty_l. simpl. now rewrite Nat.sub_0_r.
  - destruct n as [|n]; simpl in H; [lia |].
    rewrite !append_cons. simpl. f_equal. apply IH. lia.
Qed.

Ltac client_case rest :=
  destruct rest as [|? ?]; cbn [length nth Nat.ltb Nat.leb];
  [ left; split; [reflexivity | auto]
  | right; right; eexists; repeat split;
    [ cbn [length]; lia
    | first [left; reflexivity | right; reflexivity]
    | discriminate ] ].

(** X16. The client contacts the daemon at most once in a run, and not
    at all to print the usage, the version, an unknown command, or the
    complaint that the service name is missing. Under a program name
    that contains ["reboot"] it sends [reboot:reboot], whatever its
    arguments, and prints nothing. Otherwise it sends its first argument
    as the operation and its second as the service, ignores further
    arguments, and prints the reply. Every operation it sends is one the
    [switch] of the daemon knows, except [restart]. *)
Theorem client_requests (socket : string → Exchange) (args : list string) :
  match main socket args with
  | IndexOutOfRange => args = []
  | Daemonized _ => nth 1 args "" = "domain"
  | Finished asked logged out =>
      (asked = [] ∧
       (out = [usage] ∨ out = ["Error: service name required"] ∨
        out = ["systemd 226"] ∨
        out = ["Unknown command: " +:+ nth 1 args ""; usage])) ∨
      (asked = [("reboot", "reboot")] ∧ out = [] ∧
       strings_Contains (hd "" args) "reboot" = true) ∨
      (∃ op,
         asked = [(nth 2 args "", op)] ∧ op = nth 1 args "" ∧
         (3 ≤ length args)%nat ∧
         out = [send socket (nth 2 args "") op] ∧
         (recognized op = true ∨ op = "restart") ∧ op ≠ "reboot")
  end.
Proof.
  destruct args as [|arg0 rest]; [reflexivity |]. unfold main.
  destruct (strings_Contains arg0 "reboot") eqn:Hreboot;
    [right; left; now repeat split |].
  destruct rest as [|arg1 rest]; cbn [length nth Nat.ltb Nat.leb];
    [left; split; [reflexivity | auto] |].
  destruct (String.eqb_spec arg1 "enable") as [->|_]; [client_case rest |].
  destruct (String.eqb_spec arg1 "disable") as [->|_]; [client_case rest |].
  destruct (String.eqb_spec arg1 "start") as [->|_]; [client_case rest |].
  destruct (String.eqb_spec arg1 "stop") as [->|_]; [client_case rest |].
  destruct (String.eqb_spec arg1 "restart") as [->|_]; [client_case rest |].
  destruct (String.eqb_spec arg1 "status") as [->|_]; [client_case rest |].
  destruct (String.eqb_spec arg1 "domain") as [->|_]; [reflexivity |].
  destruct (String.eqb_spec arg1 "--version") as [->|_];
    left; split; auto 6.
Qed.

Section EndToEnd.

Variable Deserialize : string → result (list UnitOption).

(** X17. [systemctl restart <service>] against a running daemon: the
    daemon answers the message of the client with ["success"], the
    client, given that answer, has asked once and prints ["success"],
    and the daemon is exactly as it was: nothing was stopped or
    started. *)
Theorem restart_reports_success_and_does_nothing (prog service : string)
    (more : list string) (d : Daemon) :
  strings_Contains prog "reboot" = false →
  served Deserialize d ("restart" +:+ ":" +:+ service) = Some (Received "success") ∧
  (∀ socket : string → Exchange,
     socket ("restart" +:+ ":" +:+ service) = Received "success" →
     main socket (prog :: "restart" :: service :: more) =
       Finished [(service, "restart")] ["Restarting service: " +:+ service]
                ["success"]) ∧
  after Deserialize d ("restart" +:+ ":" +:+ service) = d.
Proof.
  intros Hprog.
  assert (Hhandle :
    handleConnection Deserialize
      (Some (String.substring 0 1024 ("restart" +:+ ":" +:+ service))) d =
    Done (Some "success") d).
  { change ("restart" +:+ ":" +:+ service) with ("restart:" +:+ service).
    rewrite substring_prefix by (simpl; lia).
    change ("restart:" +:+ ?x) with ("restart" +:+ ":" +:+ x).
    unfold handleConnection.
    rewrite (request_of_message "restart" _ eq_refl).
    now apply dispatch_unknown. }
  split; [| split].
  - unfold served. now rewrite Hhandle.
  - intros socket Hsocket. unfold main. rewrite Hprog.
    cbn [length nth Nat.ltb Nat.leb].
    cbn [String.eqb Ascii.eqb Bool.eqb]. unfold send.
    now rewrite Hsocket.
  - unfold after. now rewrite Hhandle.
Qed.

End EndToEnd.

(** ** Round trips and replies *)

(** X18. [Disable] undoes a successful [Enable]: it succeeds, and the
    file system is again what it was before the two; the registry is
    untouched throughout. *)
Theorem Enable_then_Disable_restores_files (service : string) (d d1 : Daemon) :
  Enable service d = Done None d1 →
  ∃ d2, Disable service d1 = Done None d2 ∧
        fs (world d2) = fs (world d) ∧ mapCommand d2 = mapCommand d.
Proof.
  intros Henable.
  destruct (Enable_outcome service d) as (r & d1' & Hrun & Hm & Hr & Hok & _).
  rewrite Henable in Hrun. injection Hrun as <- <-.
  assert (Habsent : fs (world d) !! unit_path enablePath service = None).
  { destruct (fs (world d) !! unit_path enablePath service) eqn:Hl; [| reflexivity].
    assert (Hsome : is_Some (@None string)) by (apply Hr; right; eauto).
    destruct Hsome as [e He]. discriminate. }
  destruct (Disable_outcome service d1) as (r2 & d2 & Hrun2 & Hm2 & Hr2 & Hfs2).
  assert (r2 = None) as ->.
  { destruct r2 as [e|]; [| reflexivity].
    assert (Hnone : fs (world d1) !! unit_path enablePath service = None)
      by (apply Hr2; eauto).
    rewrite (Hok eq_refl), lookup_insert_eq in Hnone. discriminate. }
  exists d2. split; [assumption |]. split; [| congruence].
  rewrite Hfs2, (Hok eq_refl). now apply delete_insert_id.
Qed.

Section Replies.

Variable Deserialize : string → result (list UnitOption).


End Replies.

(** ** Registry accesses outside the lock *)

Lemma adds_guarded_refl (d : Daemon) : adds_guarded d d.
Proof. exists []. split; [reflexivity | constructor]. Qed.

Lemma adds_guarded_trans (d1 d2 d3 : Daemon) :
  adds_guarded d1 d2 → adds_guarded d2 d3 → adds_guarded d1 d3.
Proof.
  intros (n1 & H1 & F1) (n2 & H2 & F2). exists (n2 ++ n1). split.
  - now rewrite H2, H1, app_assoc.
  - apply Forall_app. now split.
Qed.

Lemma locked_adds_guarded {A : Type} (body : M A) :
  under_the_lock body → preserved adds_guarded (locked body).
Proof.
  intros Hb d. destruct (locked_guarded body d Hb) as (new & Hacc & Hnew).
  exists new. split; [assumption |].
  eapply Forall_impl; [exact Hnew |]. intros a Ha. now left.
Qed.

Ltac guarded_state :=
  exists []; simpl; split; [reflexivity | constructor].

Lemma respond_adds_guarded (err : option string) : preserved adds_guarded (respond err).
Proof.
  pose proof adds_guarded_refl. pose proof adds_guarded_trans.
  unfold respond. repeat preserved_step guarded_state.
Qed.

Lemma Enable_adds_guarded (service : string) : preserved adds_guarded (Enable service).
Proof. unfold Enable. apply locked_adds_guarded. unfold ask. repeat under_step. Qed.

Lemma Disable_adds_guarded (service : string) : preserved adds_guarded (Disable service).
Proof. unfold Disable. apply locked_adds_guarded. unfold ask. repeat under_step. Qed.

Lemma Stop_adds_guarded (service : string) : preserved adds_guarded (Stop service).
Proof. unfold Stop. apply locked_adds_guarded. unfold ask. repeat under_step. Qed.

Lemma Status_adds_guarded (service : string) : preserved adds_guarded (Status service).
Proof. unfold Status. apply locked_adds_guarded. unfold ask. repeat under_step. Qed.

Section Unguarded.

Variable Deserialize : string → result (list UnitOption).

Lemma Start_adds_guarded (service : string) (try : Z) :
  preserved adds_guarded (Start Deserialize service try).
Proof.
  unfold Start. apply locked_adds_guarded. unfold ask, parseSystemdService.
  repeat under_step.
Qed.

Lemma dispatch_adds_guarded (op name : string) :
  preserved adds_guarded (dispatch Deserialize op name).
Proof.
  pose proof adds_guarded_refl as Hrefl. pose proof adds_guarded_trans as Htrans.
  unfold dispatch.
  repeat match goal with
         | |- preserved _ (if ?b then _ else _) => destruct b
         end;
    unfold log;
    repeat match goal with
           | |- preserved _ (respond _) => apply respond_adds_guarded
           | |- preserved _ (Start _ _ _) => apply Start_adds_guarded
           | |- preserved _ (Enable _) => apply Enable_adds_guarded
           | |- preserved _ (Disable _) => apply Disable_adds_guarded
           | |- preserved _ (Stop _) => apply Stop_adds_guarded
           | |- preserved _ (Status _) => apply Status_adds_guarded
           | |- preserved _ (let (_, _) := ?r in _) => destruct r
           | |- _ => preserved_step guarded_state
           end.
Qed.

Lemma watcher_retry_adds_guarded (service : string) (try : Z) :
  preserved adds_guarded (watcher_retry Deserialize service try).
Proof.
  pose proof adds_guarded_refl as Hrefl. pose proof adds_guarded_trans as Htrans.
  unfold watcher_retry. destruct (try >? 0); [| now apply preserved_ret].
  unfold log.
  apply preserved_bind; [assumption | apply preserved_modify; intros ?; guarded_state |].
  intros _. apply preserved_bind; [assumption | apply Start_adds_guarded |].
  intros [e|]; [apply preserved_modify; intros ?; guarded_state |].
  now apply preserved_ret.
Qed.

Lemma step_adds_guarded (ev : Event) : preserved adds_guarded (step Deserialize ev).
Proof.
  pose proof adds_guarded_refl as Hrefl. pose proof adds_guarded_trans as Htrans.
  destruct ev as [read|entry|i exitCode|i|w].
  - unfold step, handleConnection.
    apply preserved_bind; [assumption | | intros _; now apply preserved_ret].
    destruct read as [msg|]; [| now apply preserved_ret].
    destruct (request_of msg) as [[op name]|]; [| now apply preserved_ret].
    apply dispatch_adds_guarded.
  - unfold step, Domain_walk.
    destruct (strings_HasSuffix entry ".service"); [| now apply preserved_ret].
    destruct (String.eqb entry "e2scrub_reap.service"); [now apply preserved_ret |].
    apply preserved_bind; [assumption | apply Start_adds_guarded |].
    intros [e|]; [apply preserved_modify; intros ?; guarded_state |].
    now apply preserved_ret.
  - intros d.
    destruct (goroutines d !! i) as [[service try pid opts|service try]|] eqn:Hi;
      [| unfold step; unfold_m; simpl; rewrite Hi; apply adds_guarded_refl..].
    unfold step. unfold_m. simpl. rewrite Hi. unfold exits. simpl.
    match goal with
    | |- context [watcher_exited service opts exitCode ?d0] =>
        destruct (watcher_exited_outcome service opts exitCode d0)
          as (d1 & Hrun & _ & _ & _ & _ & _ & Hacc)
    end.
    rewrite Hrun. simpl in Hacc.
    assert (Hd1 : adds_guarded d d1).
    { eexists. split; [exact Hacc |].
      destruct (String.eqb _ "always");
        [constructor; [now right | constructor] | constructor]. }
    destruct (_ && _); simpl; [| exact Hd1].
    destruct Hd1 as (new & Hnew & Hall). now exists new.
  - intros d.
    destruct (goroutines d !! i) as [[service try pid opts|service try]|] eqn:Hi;
      [unfold step; unfold_m; simpl; rewrite Hi; apply adds_guarded_refl | |
       unfold step; unfold_m; simpl; rewrite Hi; apply adds_guarded_refl].
    rewrite (Wakeup_runs_retry Deserialize i service try d Hi).
    destruct (watcher_retry_adds_guarded service try
                (with_goroutines (delete i (goroutines d)) d))
      as (new & Hnew & Hall).
    now exists new.
  - intros d. unfold step, modify. guarded_state.
Qed.

(** X21. However the daemon got to where it is from boot, it has never
    written to the registry or deleted from it without holding the
    lock: every access it made outside the lock is a read. *)
Theorem registry_writes_are_guarded (w : World) (evs : list Event) :
  Forall (λ a, under_lock a = true ∨ kind a = MapRead)
    (accesses (state_of (run Deserialize evs (boot w)))).
Proof.
  assert (H : ∀ d, adds_guarded d (state_of (run Deserialize evs d))).
  { induction evs as [|ev evs IH]; intros d; [apply adds_guarded_refl |].
    simpl. unfold mbind, M_bind.
    pose proof (step_adds_guarded ev d) as Hstep.
    destruct (step Deserialize ev d) as [[] d'|d'|d'|code d']; simpl in *; auto.
    apply (adds_guarded_trans d d'); [assumption | apply IH]. }
  destruct (H (boot w)) as (new & Hacc & Hall).
  rewrite Hacc. simpl. now rewrite app_nil_r.
Qed.

End Unguarded.

(** ** The further properties at concrete inputs *)

(** [nginx] is read as sent, with the suffix or without it;
    [my.services] is not. *)
Lemma suffix_is_optional_for_nginx :
  request_of "stop:my.services" = Some ("stop", "mys") ∧
  request_of "start:nginx" = Some ("start", "nginx") ∧
  handleConnection simple_Deserialize (Some "start:nginx.service") (boot sample_world) =
    handleConnection simple_Deserialize (Some "start:nginx") (boot sample_world).
Proof.
  split.
  - apply (suffix_is_optional simple_Deserialize "stop" "my.services"
             (boot sample_world)); reflexivity.
  - apply (suffix_is_optional simple_Deserialize "start" "nginx" (boot sample_world));
      reflexivity.
Defined.

Lemma Start_of_unknown_unit :
  ∃ d', Start simple_Deserialize "nope" 5 sleep_running = Done (Some "no service found") d' ∧
        mapCommand d' = mapCommand sleep_running ∧ world d' = world sleep_running.
Proof.
  destruct (Start_early_errors_change_nothing simple_Deserialize "nope" 5 sleep_running)
    as (err & d' & Hrun & Hm & Hw & _ & _ & Herr & _);
    [left; vm_compute; reflexivity |].
  exists d'. rewrite <- Herr by (vm_compute; reflexivity). now repeat split.
Defined.

Lemma sleep_started_is_running :
  ∃ d'', Status "sleep" sleep_running = Done ("running", None) d''.
Proof.
  apply (Start_then_Status_running simple_Deserialize "sleep" 5 (boot sample_world)).
  vm_compute. reflexivity.
Defined.

Lemma sleep_stopped_is_exited :
  ∃ d2,
    Status "sleep" (state_of (Stop "sleep" sleep_running)) = Done ("exited", None) d2 ∨
    Status "sleep" (state_of (Stop "sleep" sleep_running)) =
      Done ("", Some "no service found") d2.
Proof.
  apply (Stop_then_Status_not_running "sleep" sleep_running None).
  vm_compute. reflexivity.
Defined.

(** [sleep] has [Restart=always]: stopped, it stays stopped when its
    watcher looks at the registry after the delete of [Stop], and comes
    back when the watcher has looked before. *)
Lemma sleep_stopped_either_way :
  (∃ d1 d2,
     Stop "sleep" sleep_running = Done None d1 ∧
     step simple_Deserialize (ChildExit 0 (-1)) d1 = Done tt d2 ∧
     goroutines d2 = [] ∧
     ∀ name, restarts name (logs d2) = restarts name (logs sleep_running)) ∧
  (∃ d2,
     Stop_while (step simple_Deserialize (ChildExit 0 (-1))) "sleep" sleep_running =
       Done None d2 ∧
     mapCommand d2 !! "sleep" = None ∧
     goroutines d2 = [Sleeping "sleep" 5] ∧
     (0 < 5 →
      ∃ d3,
        step simple_Deserialize (Wakeup 0) d2 = Done tt d3 ∧
        restarts "sleep" (logs d3) = 1%nat ∧
        LStarting "sleep" 4 ∈ logs d3)) ∧
  (∃ d1 d2,
     step simple_Deserialize (ChildExit 0 (-1)) sleep_running = Done tt d1 ∧
     Stop "sleep" d1 = Done None d2 ∧
     mapCommand d2 !! "sleep" = None ∧
     goroutines d2 = [Sleeping "sleep" 5] ∧
     (0 < 5 →
      ∃ d3,
        step simple_Deserialize (Wakeup 0) d2 = Done tt d3 ∧
        restarts "sleep" (logs d3) = 1%nat ∧
        LStarting "sleep" 4 ∈ logs d3)).
Proof.
  apply (Stop_and_the_watcher_under_always simple_Deserialize 0 (-1) sleep_running
           "sleep" 5 100 100 sleep_opts
           {| Path := "/bin/sleep"; Args := ["/bin/sleep"; "100"]; Dir := "/root";
              Process := Some 100; Err_ := None |});
    vm_compute; reflexivity.
Defined.

(** [false] has [Restart=on-failure]: stopped, it is started again when
    its watcher wakes. *)
Lemma false_stopped_comes_back :
  ∃ d1 d2 d3,
    Stop "false" false_running = Done None d1 ∧
    mapCommand d1 !! "false" = None ∧
    step simple_Deserialize (ChildExit 0 (-1)) d1 = Done tt d2 ∧
    step simple_Deserialize (Wakeup 0) d2 = Done tt d3 ∧
    restarts "false" (logs d3) = 1%nat ∧
    LStarting "false" 2 ∈ logs d3.
Proof.
  apply (Stop_does_not_cancel_the_restart simple_Deserialize 0 (-1) false_running
           "false" 3 100 100 false_opts
           {| Path := "/bin/false"; Args := ["/bin/false"]; Dir := "/root";
              Process := Some 100; Err_ := None |});
    try (vm_compute; reflexivity); try lia; try discriminate.
Defined.

Lemma ghost_cannot_be_stopped :
  ∃ err d1,
    Start simple_Deserialize "ghost" 5 (boot sample_world) = Done (Some err) d1 ∧
    (∃ d2, Status "ghost" d1 = Done ("exited", None) d2) ∧
    (∃ d2, Stop "ghost" d1 = Panic d2).
Proof.
  apply (failed_launch_then_Stop_panics simple_Deserialize "ghost" 5 (boot sample_world)
           ghost_unit ghost_opts "/opt/ghost --serve");
    try (vm_compute; reflexivity); try discriminate.
Defined.

Lemma restart_of_sleep_does_nothing :
  served simple_Deserialize sleep_running "restart:sleep" = Some (Received "success") ∧
  (∀ socket : string → Exchange,
     socket "restart:sleep" = Received "success" →
     main socket ["systemctl"; "restart"; "sleep"] =
       Finished [("sleep", "restart")] ["Restarting service: sleep"] ["success"]) ∧
  after simple_Deserialize sleep_running "restart:sleep" = sleep_running.
Proof.
  apply (restart_reports_success_and_does_nothing simple_Deserialize "systemctl"
           "sleep" [] sleep_running).
  reflexivity.
Defined.

(** The walk over an enablement directory of the sample container, from
    boot. *)
Lemma boot_walk_of_the_sample :
  ∃ d',
    Domain_autostart simple_Deserialize
      ["sleep.service"; "README"; "e2scrub_reap.service"; "false.service"]
      (boot sample_world) = Done tt d' ∧
    LStarting "sleep" 5 ∈ logs d' ∧ LStarting "false" 5 ∈ logs d' ∧
    ¬ started "e2scrub_reap" (logs d').
Proof.
  destruct (boot_walk_starts_every_unit simple_Deserialize
              ["sleep.service"; "README"; "e2scrub_reap.service"; "false.service"]
              (boot sample_world))
    as (d' & Hrun & Hall & _ & Hreserved).
  - apply (bool_decide_unpack _). vm_compute. exact I.
  - intros name _ _. simpl. apply lookup_empty.
  - exists d'. split; [exact Hrun |]. split; [| split].
    + apply (Hall "sleep.service"); [| reflexivity | discriminate].
      apply list_elem_of_here.
    + apply (Hall "false.service"); [| reflexivity | discriminate].
      do 3 apply list_elem_of_further. apply list_elem_of_here.
    + apply Hreserved. intros [t Hin]. simpl in Hin. now apply elem_of_nil in Hin.
Defined.

(** Enabled and then disabled, [sleep] leaves the sample container as it
    was. *)
Lemma sleep_enabled_then_disabled :
  ∃ d2,
    Disable "sleep" (state_of (Enable "sleep" (boot sample_world))) = Done None d2 ∧
    fs (world d2) = fs (world (boot sample_world)) ∧
    mapCommand d2 = mapCommand (boot sample_world).
Proof.
  apply (Enable_then_Disable_restores_files "sleep" (boot sample_world)
           (state_of (Enable "sleep" (boot sample_world)))).
  vm_compute. reflexivity.
Defined.
